(** * Student clustering: vector extraction, Hamming distance, classification
      and aggregation

    A shallow embedding of [modules/analytics/clustering.py].

    Conventions of the embedding.
    - Scores and range bounds are Python numbers; they are modelled as exact
      rationals [Q], so [math.fsum] is the exact sum and [/] the exact
      quotient.
    - What the cluster editor reads with [float] is a [pyfloat]: a rational,
      an infinity or not-a-number, with the comparison of floats.
    - Python dictionaries with a fixed set of keys are records; a key that
      may be missing is an [option] field.
    - The [dict] and [defaultdict] objects that the jobs build are [gmap]s;
      their iteration order is whatever [map_to_list] gives, and no theorem
      below depends on it.
    - A Python exception is the result [None] of an [option]-valued function. *)

From Stdlib Require Import QArith Ascii.
From stdpp Require Import gmap strings list fin_maps.
Close Scope Q_scope.

(** * The program *)

(** ** Dimensions *)

Definition DIMENSION_TYPE_UNIT : string := "u".
Definition DIMENSION_TYPE_LESSON : string := "l".
Definition DIMENSION_TYPE_QUESTION : string := "q".

(** What [dim.get(DIM_LOW)] or [dim.get(DIM_HIGH)] can return: [None] because
    the key is missing, a stored [None], the empty string left by the editor,
    or a number. *)
Inductive bound : Type :=
  | KeyAbsent
  | PyNone
  | EmptyString
  | Number (q : Q).

(** The decoded JSON object kept under [DIM_EXTRA_INFO]. *)
Record extra_info : Type := {
  unit_scored_lessons : option Z
}.

(** A dimension of a cluster vector or of the catalog of possible
    dimensions. *)
Record dimension : Type := {
  DIM_TYPE : string;
  DIM_ID : string;
  DIM_LOW : bound;
  DIM_HIGH : bound;
  DIM_EXTRA_INFO : option extra_info
}.

(** An entry of a student vector: the keys [DIM_TYPE], [DIM_ID] and
    [DIM_VALUE]. *)
Record student_dimension : Type := {
  sv_type : string;
  sv_id : string;
  sv_value : Q
}.

Definition _has_right_side (dim : dimension) : bool :=
  match DIM_HIGH dim with
  | Number _ => true
  | KeyAbsent | PyNone | EmptyString => false
  end.

Definition _has_left_side (dim : dimension) : bool :=
  match DIM_LOW dim with
  | Number _ => true
  | KeyAbsent | PyNone | EmptyString => false
  end.

(** Truth value of a Python number: only zero is false. *)
Definition py_bool (q : Q) : bool := negb (Qeq_bool q 0).

(** ** Raw activity data *)

(** An answer as [_inverse_submission_data] files it under its question
    dimension: [answer.get('weighted_score')] and the timestamp copied from
    the submission. *)
Record answer : Type := {
  weighted_score : option Q;
  timestamp : Z
}.

(** An activity record of the aggregate; each of the three keys may be
    missing. *)
Record activity : Type := {
  unit_id : option string;
  lesson_id : option string;
  last_score : option Q
}.

(** [math.fsum]. *)
Definition fsum (l : list Q) : Q := fold_left Qplus l 0%Q.

(** [len(l)] as a number. *)
Definition len {A : Type} (l : list A) : Q := inject_Z (Z.of_nat (length l)).

(** True division [x / float(d)]; [None] is [ZeroDivisionError]. *)
Definition py_div (x : Q) (d : Z) : option Q :=
  if (d =? 0)%Z then None else Some (x / inject_Z d)%Q.

(** ** Identifiers *)

(** [str(x)] of an id that may be [None]; ids are kept as their text. *)
Definition py_str (x : option string) : string := default "None" x.

(** [s.split(sep)] for a separator that is not empty, reading [s] from the
    left. [skip] counts the characters of a separator just found that are
    still to be passed over; [piece] is what was read since the last
    separator. *)
Fixpoint split_from (sep : string) (skip : nat) (piece : string) (s : string)
    : list string :=
  match s with
  | "" => [piece]
  | String c rest =>
      match skip with
      | S k => split_from sep k piece rest
      | O =>
          if String.prefix sep s
          then piece :: split_from sep (String.length sep - 1) "" rest
          else split_from sep 0 (piece +:+ String c "") rest
      end
  end.

Definition py_split (sep s : string) : list string := split_from sep 0 "" s.

Definition pack_question_dimid (unit_id lesson_id question_id : option string) : string :=
  py_str unit_id +:+ ":" +:+ py_str lesson_id +:+ ":" +:+ py_str question_id.

(** [None] is the [ValueError] raised when the split does not give three
    parts. *)
Definition unpack_question_dimid (dimension_id : string)
    : option (string * option string * string) :=
  match py_split ":" dimension_id with
  | [unit_id; lesson_id; question_id] =>
      Some (unit_id,
            (if decide (lesson_id = "None") then None else Some lesson_id),
            question_id)
  | _ => None
  end.

(** ** Raw activity data, continued *)

(** An answer inside a submission of the raw data. *)
Record raw_answer : Type := {
  question_id : option string;
  answer_weighted_score : option Q
}.

(** A submission: its timestamp and [submission.get('answers', [])]. *)
Record submission : Type := {
  submission_timestamp : Z;
  answers : list raw_answer
}.

(** An entry of the ['assessments'] list: the keys read by the scoring
    functions and [activity.get('submissions', [])]. *)
Record raw_activity : Type := {
  activity_fields : activity;
  submissions : list submission
}.

(** A [StudentAggregateEntity]: its key name and [raw_data.get('assessments',
    [])] of its decoded data. *)
Record student_aggregate : Type := {
  aggregate_key_name : string;
  assessments : list raw_activity
}.

(** The dictionary built by [_inverse_submission_data]. Its keys are pairs
    [(type, id)]; the entries of the three types are kept apart, which also
    gives each list its element type. A missing key reads as the empty
    list. *)
Record submission_index : Type := {
  unit_data : gmap (option string) (list activity);
  lesson_data : gmap (option string) (list activity);
  question_data : gmap string (list answer)
}.

(** [result[k].append(x)] on a [defaultdict] of lists. *)
Definition append_to {K} `{Countable K} {A} (m : gmap K (list A)) (k : K) (x : A)
    : gmap K (list A) :=
  <[k := default [] (m !! k) ++ [x]]> m.

(** A [StudentVector] entity: its key name and its decoded vector. *)
Record student_vector : Type := {
  key_name : string;
  vector : list student_dimension
}.

Module StudentVector.

(** First value among the entries with the given id and type, [None] when
    there is no candidate. *)
Definition get_dimension_value
    (vector : list student_dimension) (dim_id dim_type : string) : option Q :=
  let candidates :=
    sv_value <$>
      filter (λ dim, sv_id dim = dim_id ∧ sv_type dim = dim_type) vector in
  head candidates.

End StudentVector.

Module StudentVectorGenerator.

(** One iteration of the loop of [_get_question_score] on the state
    [(last_scores, last_timestamp)]. A missing score is [None], which is
    false, so neither branch runs. *)
Definition question_step (st : list Q * Z) (a : answer) : list Q * Z :=
  let '(last_scores, last_timestamp) := st in
  match weighted_score a with
  | Some score =>
      if py_bool score && (last_timestamp <? timestamp a)%Z then
        ([score], timestamp a)
      else if py_bool score && (timestamp a =? last_timestamp)%Z then
        (last_scores ++ [score], last_timestamp)
      else (last_scores, last_timestamp)
  | None => (last_scores, last_timestamp)
  end.

Definition _get_question_score (data : list answer) : Q :=
  let '(last_scores, _) := fold_left question_step data ([], 0%Z) in
  match last_scores with
  | [] => 0%Q
  | _ :: _ => (fsum last_scores / len last_scores)%Q
  end.

(** The divisor computed at the head of [_get_unit_score]. *)
Definition scored_lessons (dimension : dimension) : Z :=
  match DIM_EXTRA_INFO dimension with
  | None => 1%Z
  | Some extra =>
      match unit_scored_lessons extra with
      | None => 1%Z
      | Some n => Z.max n 1
      end
  end.

(** One iteration of the summing loop of [_get_unit_score]. *)
Definition unit_step (dimension : dimension) (score : Q) (submission : activity) : Q :=
  match unit_id submission, last_score submission with
  | Some u, Some s =>
      if decide (u = DIM_ID dimension) then (score + s)%Q else score
  | _, _ => score
  end.

Definition _get_unit_score (data : list activity) (dimension : dimension) : option Q :=
  let score := fold_left (unit_step dimension) data 0%Q in
  py_div score (scored_lessons dimension).

(** The first record of the list that has both keys and the lesson id of the
    dimension gives the score. *)
Fixpoint _get_lesson_score (data : list activity) (dimension : dimension) : Q :=
  match data with
  | [] => 0%Q
  | submission :: rest =>
      match lesson_id submission, last_score submission with
      | Some l, Some s =>
          if decide (l = DIM_ID dimension) then s
          else _get_lesson_score rest dimension
      | _, _ => _get_lesson_score rest dimension
      end
  end.

(** The innermost loop body of [_inverse_submission_data]: the answer gets
    the timestamp of its submission and is filed under its question
    dimension. *)
Definition answer_step (activity_unit activity_lesson : option string)
    (sub : submission) (result : submission_index) (ans : raw_answer)
    : submission_index :=
  let dim_id := pack_question_dimid activity_unit activity_lesson (question_id ans) in
  {| unit_data := unit_data result;
     lesson_data := lesson_data result;
     question_data :=
       append_to (question_data result) dim_id
         {| weighted_score := answer_weighted_score ans;
            timestamp := submission_timestamp sub |} |}.

(** The loop body over the activities. *)
Definition activity_step (result : submission_index) (act : raw_activity)
    : submission_index :=
  let activity_lesson := lesson_id (activity_fields act) in
  let activity_unit := unit_id (activity_fields act) in
  let result :=
    {| unit_data := append_to (unit_data result) activity_unit (activity_fields act);
       lesson_data := append_to (lesson_data result) activity_lesson (activity_fields act);
       question_data := question_data result |} in
  fold_left
    (λ result sub,
       fold_left (answer_step activity_unit activity_lesson sub) (answers sub) result)
    (submissions act) result.

Definition _inverse_submission_data (dimensions : list dimension)
    (raw_data : list raw_activity) : submission_index :=
  fold_left activity_step raw_data
    {| unit_data := ∅; lesson_data := ∅; question_data := ∅ |}.

(** The value of one dimension: the data filed under its type and id, given
    to the function of its type. [None] is the [KeyError] of a type that is
    not in [DIMENSION_FUNCTIONS] (or a failure of the function). *)
Definition dimension_value (data : submission_index) (dim : dimension) : option Q :=
  if decide (DIM_TYPE dim = DIMENSION_TYPE_QUESTION) then
    Some (_get_question_score (default [] (question_data data !! DIM_ID dim)))
  else if decide (DIM_TYPE dim = DIMENSION_TYPE_LESSON) then
    Some (_get_lesson_score (default [] (lesson_data data !! Some (DIM_ID dim))) dim)
  else if decide (DIM_TYPE dim = DIMENSION_TYPE_UNIT) then
    _get_unit_score (default [] (unit_data data !! Some (DIM_ID dim))) dim
  else None.

(** What a call of the mapper does: it returns at once, it raises, or it
    puts a [StudentVector]. *)
Inductive map_outcome : Type :=
  | Skipped
  | Raised
  | Stored (entity : student_vector).

Definition map (possible_dimensions : list dimension) (item : student_aggregate)
    : map_outcome :=
  match assessments item with
  | [] => Skipped
  | (_ :: _) as raw_data =>
      let data := _inverse_submission_data possible_dimensions raw_data in
      match mapM (λ dim,
                    value ← dimension_value data dim;
                    Some {| sv_type := DIM_TYPE dim;
                            sv_id := DIM_ID dim;
                            sv_value := value |})
                 possible_dimensions with
      | Some vector =>
          Stored {| key_name := aggregate_key_name item; vector := vector |}
      | None => Raised
      end
  end.

End StudentVectorGenerator.

(** ** Distance engine *)

Definition fits_left_side (dim : dimension) (value : Q) : bool :=
  negb (_has_left_side dim) ||
  match DIM_LOW dim with
  | Number low => Qle_bool low value
  | KeyAbsent | PyNone | EmptyString => true
  end.

Definition fits_right_side (dim : dimension) (value : Q) : bool :=
  negb (_has_right_side dim) ||
  match DIM_HIGH dim with
  | Number high => Qle_bool value high
  | KeyAbsent | PyNone | EmptyString => true
  end.

(** The value the loop of [hamming_distance] works with: the looked-up value,
    replaced by [0] when it is [None] or zero. *)
Definition value_or_zero (value : option Q) : Q :=
  match value with
  | Some v => if py_bool v then v else 0%Q
  | None => 0%Q
  end.

(** One iteration of the loop of [hamming_distance]. *)
Definition hamming_step (student_vector : list student_dimension)
    (distance : nat) (dim : dimension) : nat :=
  let value :=
    value_or_zero
      (StudentVector.get_dimension_value student_vector (DIM_ID dim) (DIM_TYPE dim)) in
  if negb (fits_left_side dim value) || negb (fits_right_side dim value)
  then distance + 1 else distance.

Definition hamming_distance
    (vector : list dimension) (student_vector : list student_dimension) : nat :=
  fold_left (hamming_step student_vector) vector 0.

(** ** Cluster classifier and aggregator *)

(** An element of [mapper_params['clusters']]: the dictionary
    [{'id': cluster.id, 'vector': cluster.vector}]. *)
Record cluster : Type := {
  cluster_id : Z;
  cluster_vector : list dimension
}.

Record mapper_params : Type := {
  clusters : list cluster;
  max_distance : nat
}.

(** A [StudentClusters] entity: the key name and the dictionary from cluster
    id to distance. *)
Record student_clusters : Type := {
  sc_key_name : string;
  sc_clusters : gmap Z nat
}.

(** The two kinds of keys the mapper yields: a cluster id, or the JSON list
    of two cluster ids. *)
Inductive key : Type :=
  | ClusterKey (cluster1_id : Z)
  | PairKey (cluster1_id cluster2_id : Z).

(** The two kinds of values: the tuple [(student_id, distance)] and the tuple
    [(student_id, _, _)] of a pair of clusters. *)
Inductive value : Type :=
  | Tuple2 (student_id : string) (v1 : nat)
  | Tuple3 (student_id : string) (v1 v2 : nat).

#[global] Instance key_eq_dec : EqDecision key.
Proof. solve_decision. Defined.

#[global] Instance value_eq_dec : EqDecision value.
Proof. solve_decision. Defined.

(** [value[1]], defined for both shapes. *)
Definition value_1 (v : value) : nat :=
  match v with
  | Tuple2 _ v1 => v1
  | Tuple3 _ v1 _ => v1
  end.

(** [value[2]]; [None] is the [IndexError] of a 2-tuple. *)
Definition value_2 (v : value) : option nat :=
  match v with
  | Tuple2 _ _ => None
  | Tuple3 _ _ v2 => Some v2
  end.

(** The outcome of a reducer call: the tuple
    [(stat_name, (item_id, list_distances))]. *)
Record statistic : Type := {
  stat_name : string;
  stat_item_id : key;
  stat_distances : list nat
}.

(** [max(l)] of a list; [None] is the [ValueError] of an empty list. *)
Definition py_max (l : list nat) : option nat :=
  match l with
  | [] => None
  | _ :: _ => Some (max_list l)
  end.

Module ClusteringGenerator.

Definition MIN_DISTANCE : nat := 0.
Definition MAX_DISTANCE : nat := 2.

Definition build_additional_mapper_params (all_clusters : list cluster) : mapper_params :=
  {| clusters := all_clusters; max_distance := MAX_DISTANCE |}.

(** The inner loop of [map]: one pair per entry of the dictionary built so
    far, keyed by the earlier cluster and then the current one. *)
Definition yield_pairs (item : student_vector) (cluster : cluster)
    (distance : nat) (clusters : gmap Z nat) : list (key * value) :=
  (λ '(cluster2_id, distance2),
     (PairKey cluster2_id (cluster_id cluster),
      Tuple3 (key_name item) distance distance2))
    <$> map_to_list clusters.

(** One iteration of the loop of [map] over the clusters. The state is the
    dictionary [clusters] built so far and the pairs yielded so far. *)
Definition map_step (item : student_vector) (max_distance : nat)
    (st : gmap Z nat * list (key * value)) (cluster : cluster)
    : gmap Z nat * list (key * value) :=
  let '(clusters, yielded) := st in
  let distance := hamming_distance (cluster_vector cluster) (vector item) in
  if (max_distance <? distance)%nat then (clusters, yielded)
  else
    (<[cluster_id cluster := distance]> clusters,
     yielded ++ yield_pairs item cluster distance clusters ++
       [(ClusterKey (cluster_id cluster), Tuple2 (key_name item) distance)]).

(** The mapper: everything it yields, in order, and the entity it puts. *)
Definition map (params : mapper_params) (item : student_vector)
    : list (key * value) * student_clusters :=
  let '(clusters, yielded) :=
    fold_left (map_step item (max_distance params)) (clusters params) (∅, []) in
  (yielded, {| sc_key_name := key_name item; sc_clusters := clusters |}).

(** [distances[k] += 1] on a [defaultdict] with default [0]. *)
Definition increment (distances : gmap nat nat) (k : nat) : gmap nat nat :=
  <[k := default 0 (distances !! k) + 1]> distances.

(** Loop body for a pair key. *)
Definition intersection_step (distances : option (gmap nat nat)) (v : value)
    : option (gmap nat nat) :=
  distances ← distances;
  v2 ← value_2 v;
  let min_distance := max (value_1 v) v2 in
  Some (increment distances min_distance).

(** Loop body for a single cluster key. *)
Definition count_step (distances : gmap nat nat) (v : value) : gmap nat nat :=
  increment distances (value_1 v).

(** [list_distances[int(distance)] = count]; [None] is [IndexError]. *)
Definition fill_step (list_distances : option (list nat)) (entry : nat * nat)
    : option (list nat) :=
  list_distances ← list_distances;
  let '(distance, count) := entry in
  if decide (distance < length list_distances)
  then Some (<[distance := count]> list_distances)
  else None.

(** [list_distances[index] += list_distances[index - 1]], for an index of
    [range(1, len(list_distances))]. *)
Definition accumulate_step (list_distances : list nat) (index : nat) : list nat :=
  <[index := list_distances !!! index + list_distances !!! (index - 1)]> list_distances.

(** The dictionary [distances] after the first loop of [reduce]. *)
Definition buckets (item_id : key) (values : list value) : option (gmap nat nat) :=
  match item_id with
  | PairKey _ _ => fold_left intersection_step values (Some ∅)
  | ClusterKey _ => Some (fold_left count_step values ∅)
  end.

Definition reduce (item_id : key) (values : list value) : option statistic :=
  distances ← buckets item_id values;
  let stat_name :=
    match item_id with
    | PairKey _ _ => "intersection"
    | ClusterKey _ => "count"
    end in
  m ← py_max ((map_to_list distances).*1);
  let list_distances := replicate (m + 1) 0 in
  list_distances ← fold_left fill_step (map_to_list distances) (Some list_distances);
  let list_distances :=
    fold_left accumulate_step (seq 1 (length list_distances - 1)) list_distances in
  Some {| stat_name := stat_name;
          stat_item_id := item_id;
          stat_distances := list_distances |}.

End ClusteringGenerator.

(** ** Dimension catalog *)

(** What [get_possible_dimensions] reads of the course structure that
    [OrderedQuestionsDataSource] fills in: units, their content items and the
    questions of each item. Keys read with [get] are options. *)
Record question_entry : Type := {
  question_entry_id : string;
  description : string
}.

Record content_item : Type := {
  item_lesson_id : option string;
  item_unit_id : option string;
  item_title : option string;
  tallied : option bool;
  questions : list question_entry
}.

Record unit_entry : Type := {
  unit_entry_id : string;
  title : string;
  contents : list content_item
}.

(** Truth value of a text that may be [None]: [None] and the empty text are
    false. *)
Definition py_text_bool (x : option string) : bool :=
  match x with
  | Some s => negb (String.eqb s "")
  | None => false
  end.

(** A catalog dimension without bounds. *)
Definition catalog_dimension (dim_type dim_id : string) (extra : option extra_info)
    : dimension :=
  {| DIM_TYPE := dim_type; DIM_ID := dim_id;
     DIM_LOW := KeyAbsent; DIM_HIGH := KeyAbsent; DIM_EXTRA_INFO := extra |}.

(** The dimension appended for a question of an item. *)
Definition question_dimension (unit : unit_entry) (item : content_item)
    (question : question_entry) : dimension * string :=
  let question_id :=
    if py_text_bool (item_unit_id item)
    then pack_question_dimid (item_unit_id item) None (Some (question_entry_id question))
    else pack_question_dimid (Some (unit_entry_id unit)) (item_lesson_id item)
           (Some (question_entry_id question)) in
  (catalog_dimension DIMENSION_TYPE_QUESTION question_id None, description question).

(** One iteration of the loop over the contents of a unit. The state is what
    was appended after the unit's own dimension and the counter
    [unit_scored_lessons]. Every dimension comes with its ['name']. *)
Definition item_step (unit : unit_entry)
    (st : list (dimension * string) * nat) (item : content_item)
    : list (dimension * string) * nat :=
  let '(result, unit_scored_lessons) := st in
  let lesson_id := item_lesson_id item in
  let included_assessment_id := item_unit_id item in
  let lesson_title := item_title item in
  let '(result, unit_scored_lessons) :=
    if py_text_bool lesson_title && py_text_bool lesson_id
       && default false (tallied item)
    then
      (result ++ [(catalog_dimension DIMENSION_TYPE_LESSON (default "" lesson_id) None,
                   default "" lesson_title)],
       unit_scored_lessons + 1)
    else if py_text_bool included_assessment_id && py_text_bool lesson_title
    then
      (result ++ [(catalog_dimension DIMENSION_TYPE_UNIT
                     (default "" included_assessment_id) None,
                   default "" lesson_title)],
       unit_scored_lessons + 1)
    else (result, unit_scored_lessons) in
  (result ++ (question_dimension unit item <$> questions item), unit_scored_lessons).

(** One iteration of the loop over the units. The unit's dictionary is
    appended first and receives its extra info after the loop over the
    contents; as the list holds that very dictionary, the entry of the list
    has the extra info. *)
Definition unit_step (result : list (dimension * string)) (unit : unit_entry)
    : list (dimension * string) :=
  let '(appended, unit_scored_lessons) :=
    fold_left (item_step unit) (contents unit) ([], 0) in
  result
  ++ (catalog_dimension DIMENSION_TYPE_UNIT (unit_entry_id unit)
        (Some {| unit_scored_lessons := Some (Z.of_nat unit_scored_lessons) |}),
      title unit)
     :: appended.

Definition get_possible_dimensions (units : list unit_entry)
    : list (dimension * string) :=
  fold_left unit_step units [].

(** ** Cluster editor *)

(** A Python float: a finite number, an infinity, or not-a-number. [float]
    reads texts such as ['inf'], ['-inf'] and ['nan'] without an error. *)
Inductive pyfloat : Type :=
  | Finite (q : Q)
  | PosInf
  | NegInf
  | NaN.

(** [x < y] on floats: every comparison with not-a-number is false. *)
Definition float_lt (x y : pyfloat) : bool :=
  match x, y with
  | NaN, _ | _, NaN => false
  | Finite a, Finite b => negb (Qle_bool b a)
  | Finite _, PosInf => true
  | Finite _, NegInf => false
  | PosInf, _ => false
  | NegInf, NegInf => false
  | NegInf, _ => true
  end.

(** A bound as the editor sends it and as [validate] leaves it: the key is
    missing, [None], a text, or a number. *)
Inductive field : Type :=
  | FieldAbsent
  | FieldNone
  | FieldText (s : string)
  | FieldNumber (x : pyfloat).

(** A dimension of the item that [validate] receives: the id is the packed
    id of the select field. *)
Record edited_dimension : Type := {
  edited_id : string;
  edited_low : field;
  edited_high : field;
  edited_extra_info : option extra_info
}.

(** A dimension of the item once [validate] has gone over it. *)
Record validated_dimension : Type := {
  validated_id : string;
  validated_type : string;
  validated_low : field;
  validated_high : field;
  validated_extra_info : option extra_info
}.

(** The messages appended to [errors], with the dimension number they
    mention. *)
Inductive validation_error : Type :=
  | EmptyName
  | NonNumeric (index : nat)
  | WrongRange (index : nat).

(** [_has_left_side] and [_has_right_side] on such a bound: it is neither
    [None] nor the empty text. *)
Definition field_has_side (f : field) : bool :=
  match f with
  | FieldAbsent | FieldNone => false
  | FieldText s => negb (String.eqb s "")
  | FieldNumber _ => true
  end.

(** [x < y] as Python 2 compares numbers and texts: two numbers compare as
    floats, a number is below every text, two texts compare as texts. *)
Definition py2_lt (x y : field) : bool :=
  match x, y with
  | FieldNumber a, FieldNumber b => float_lt a b
  | FieldNumber _, FieldText _ => true
  | FieldText _, FieldNumber _ => false
  | FieldText a, FieldText b => String.ltb a b
  | _, _ => false
  end.

Module ClusterRESTHandler.

(** [float(x)] of a bound; the reading of a text is the parameter [float],
    with [None] for [ValueError]. *)
Definition to_float (float : string → option pyfloat) (f : field) : option pyfloat :=
  match f with
  | FieldNumber x => Some x
  | FieldText s => float s
  | FieldAbsent | FieldNone => None
  end.

(** The treatment of one side of a dimension in [validate]: converted when
    present, with an error when the conversion fails, and [None] when
    absent. *)
Definition convert_side (float : string → option pyfloat) (index : nat) (f : field)
    (errors : list validation_error) : field * list validation_error :=
  if field_has_side f then
    match to_float float f with
    | Some x => (FieldNumber x, errors)
    | None => (f, errors ++ [NonNumeric index])
    end
  else (FieldNone, errors).

Definition pack_id (dim_id dim_type : string) : string :=
  dim_id +:+ "---" +:+ dim_type.

Definition unpack_id (packed_id : string) : list string := py_split "---" packed_id.

(** [transform_for_editor_hook] on the vector of the item. *)
Definition transform_for_editor_hook (vector : list dimension) : list dimension :=
  (λ dim, {| DIM_TYPE := DIM_TYPE dim;
             DIM_ID := pack_id (DIM_ID dim) (DIM_TYPE dim);
             DIM_LOW := DIM_LOW dim;
             DIM_HIGH := DIM_HIGH dim;
             DIM_EXTRA_INFO := DIM_EXTRA_INFO dim |}) <$> vector.

(** One iteration of the loop of [validate]; [None] is the [ValueError] of
    unpacking an id that does not split in two. *)
Definition validate_dimension (float : string → option pyfloat)
    (st : option (list validated_dimension * list validation_error))
    (entry : nat * edited_dimension)
    : option (list validated_dimension * list validation_error) :=
  '(validated, errors) ← st;
  let '(index, dim) := entry in
  let '(high, errors) := convert_side float index (edited_high dim) errors in
  let '(low, errors) := convert_side float index (edited_low dim) errors in
  let errors :=
    if field_has_side low && field_has_side high && py2_lt high low
    then errors ++ [WrongRange index] else errors in
  match unpack_id (edited_id dim) with
  | [dim_id; dim_type] =>
      Some (validated ++ [ {| validated_id := dim_id;
                              validated_type := dim_type;
                              validated_low := low;
                              validated_high := high;
                              validated_extra_info := edited_extra_info dim |} ],
            errors)
  | _ => None
  end.

(** [validate] on the name and the vector of the item: the vector after the
    call and the list [errors] after the call. *)
Definition validate (float : string → option pyfloat) (name : string)
    (vector : list edited_dimension) (errors : list validation_error)
    : option (list validated_dimension * list validation_error) :=
  let errors := if String.eqb name "" then errors ++ [EmptyName] else errors in
  fold_left (validate_dimension float) (imap (λ index dim, (index, dim)) vector)
    (Some ([], errors)).

(** [pre_save_hook]: the vector that is saved keeps the dimensions that have
    a lower or an upper bound. *)
Definition pre_save_hook (vector : list dimension) : list dimension :=
  filter (λ dim, _has_left_side dim || _has_right_side dim) vector.

End ClusterRESTHandler.

(** * Notions used to state the properties *)

(** ** Question scores *)

(** The arithmetic mean of a list of scores. *)
Definition mean (l : list Q) : Q := (fsum l / len l)%Q.

(** The answer carries a score that Python takes as true (present and not
    zero). *)
Definition truthy_score (a : answer) : bool :=
  match weighted_score a with
  | Some q => py_bool q
  | None => false
  end.

(** The weighted scores found on the answers submitted at time [m]. *)
Definition scores_at (m : Z) (data : list answer) : list Q :=
  omap weighted_score (filter (λ a, timestamp a = m) data).

(** The largest timestamp over all the answers of a list. *)
Definition latest_timestamp (data : list answer) : option Z :=
  match data with
  | [] => None
  | a :: rest => Some (foldr Z.max (timestamp a) (timestamp <$> rest))
  end.

(** The question score read literally from the specification: the mean of the
    weighted scores of the answers at the largest timestamp over all the
    answers, and [0] when there is nothing to average. *)
Definition question_score_as_stated (data : list answer) : Q :=
  match latest_timestamp data with
  | None => 0%Q
  | Some m =>
      match scores_at m data with
      | [] => 0%Q
      | (_ :: _) as scores => mean scores
      end
  end.

(** A scored answer followed by a later answer scored zero. *)
Definition answers_zero_last : list answer :=
  [ {| weighted_score := Some 0.6%Q; timestamp := 5 |};
    {| weighted_score := Some 0%Q; timestamp := 9 |} ].

(** Two answers of the same submission, the first of them scored zero. *)
Definition answers_zero_tie : list answer :=
  [ {| weighted_score := Some 0%Q; timestamp := 9 |};
    {| weighted_score := Some 1%Q; timestamp := 9 |} ].

(** ** Unit scores *)

(** The [last_score] values of the records filed under the unit [dim_id]. *)
Definition matching_scores (dim_id : string) (data : list activity) : list Q :=
  omap last_score (filter (λ s, unit_id s = Some dim_id) data).

(** The scored-lesson count as recorded in the dimension, [1] when the extra
    info or the count is missing. *)
Definition lesson_count (dimension : dimension) : Z :=
  match DIM_EXTRA_INFO dimension with
  | Some extra => default 1%Z (unit_scored_lessons extra)
  | None => 1%Z
  end.

(** A unit with two scored lessons and the records of its two lessons, next
    to a record of another unit and a record without score. *)
Definition unit_with_two_lessons : dimension :=
  {| DIM_TYPE := DIMENSION_TYPE_UNIT; DIM_ID := "7";
     DIM_LOW := KeyAbsent; DIM_HIGH := KeyAbsent;
     DIM_EXTRA_INFO := Some {| unit_scored_lessons := Some 2%Z |} |}.

Definition two_lesson_records : list activity :=
  [ {| unit_id := Some "7"; lesson_id := Some "1"; last_score := Some 0.5%Q |};
    {| unit_id := Some "8"; lesson_id := Some "1"; last_score := Some 0.9%Q |};
    {| unit_id := Some "7"; lesson_id := Some "2"; last_score := Some 1%Q |};
    {| unit_id := Some "7"; lesson_id := Some "3"; last_score := None |} ].

(** ** Distances *)

(** The dimension counts against a student whose value is [value]. *)
Definition rejects (dim : dimension) (value : Q) : bool :=
  negb (fits_left_side dim value) || negb (fits_right_side dim value).

(** The value the loop of [hamming_distance] uses for a dimension. *)
Definition used_value (student_vector : list student_dimension) (dim : dimension) : Q :=
  value_or_zero
    (StudentVector.get_dimension_value student_vector (DIM_ID dim) (DIM_TYPE dim)).

(** The student vector has an entry for the dimension. *)
Definition has_entry (student_vector : list student_dimension) (dim : dimension) : Prop :=
  ∃ e, e ∈ student_vector ∧ sv_id e = DIM_ID dim ∧ sv_type e = DIM_TYPE dim.

(** A lesson dimension with a lower bound of 1 and no upper bound, and a
    dimension with no bound at all. *)
Definition lesson_at_least_one : dimension :=
  {| DIM_TYPE := DIMENSION_TYPE_LESSON; DIM_ID := "3";
     DIM_LOW := Number 1; DIM_HIGH := PyNone; DIM_EXTRA_INFO := None |}.

Definition lesson_unbounded : dimension :=
  {| DIM_TYPE := DIMENSION_TYPE_LESSON; DIM_ID := "4";
     DIM_LOW := EmptyString; DIM_HIGH := KeyAbsent; DIM_EXTRA_INFO := None |}.

(** ** Classification *)

(** The distance of a student to a cluster, and whether the classifier keeps
    the cluster for that student. *)
Definition distance_to (item : student_vector) (c : cluster) : nat :=
  hamming_distance (cluster_vector c) (vector item).

Definition retained (item : student_vector) (max_distance : nat) (c : cluster) : Prop :=
  distance_to item c ≤ max_distance.

(** Cluster [ca] comes before cluster [cb] in the list and both are
    retained. *)
Definition retained_pair (item : student_vector) (max_distance : nat)
    (cs : list cluster) (ca cb : cluster) : Prop :=
  ∃ i j, cs !! i = Some ca ∧ cs !! j = Some cb ∧ i < j
         ∧ retained item max_distance ca ∧ retained item max_distance cb.

(** The keys of a list of yielded pairs. *)
Definition keys_of (yielded : list (key * value)) : list key := yielded.*1.

(** Three clusters at distances 0, 1 and 3 from a student with an empty
    vector. *)
Definition cluster_matching_all : cluster :=
  {| cluster_id := 1; cluster_vector := [] |}.

Definition cluster_one_off : cluster :=
  {| cluster_id := 2; cluster_vector := [lesson_at_least_one] |}.

Definition cluster_three_off : cluster :=
  {| cluster_id := 3;
     cluster_vector := [lesson_at_least_one; lesson_at_least_one; lesson_at_least_one] |}.

Definition blank_student : student_vector :=
  {| key_name := "student-1"; vector := [] |}.

(** ** Aggregation *)

(** Number of distances of a group equal to [k], and at most [k]. *)
Definition count_eq (k : nat) (ds : list nat) : nat :=
  length (filter (λ d, d = k) ds).

Definition count_le (k : nat) (ds : list nat) : nat :=
  length (filter (λ d, d ≤ k) ds).

(** The distance at which the reducer files a value under a given key: the
    only distance of a single-cluster value, the larger of the two distances
    of a pair value. [None] when a value is too short for a pair key. *)
Definition filed_at (item_id : key) (v : value) : option nat :=
  match item_id with
  | ClusterKey _ => Some (value_1 v)
  | PairKey _ _ => v2 ← value_2 v; Some (max (value_1 v) v2)
  end.

Definition group_distances (item_id : key) (values : list value) : option (list nat) :=
  mapM (filed_at item_id) values.

(** A pairwise observation [(student, d1, d2)] and the value that carries
    it. *)
Definition pair_value (o : string * nat * nat) : value :=
  Tuple3 o.1.1 o.1.2 o.2.

(** The larger of the two distances of a pairwise observation. *)
Definition worse_distance (o : string * nat * nat) : nat := max o.1.2 o.2.

(** The value with its two distances exchanged. *)
Definition swap_distances (v : value) : value :=
  match v with
  | Tuple2 s d => Tuple2 s d
  | Tuple3 s d1 d2 => Tuple3 s d2 d1
  end.

(** The name of the statistic computed for a key. *)
Definition statistic_name (item_id : key) : string :=
  match item_id with
  | PairKey _ _ => "intersection"
  | ClusterKey _ => "count"
  end.

(** The group of the aggregation example: distances 0, 0, 1 and 2 to one
    cluster. *)
Definition four_observations : list value :=
  [ Tuple2 "s1" 0; Tuple2 "s2" 0; Tuple2 "s3" 1; Tuple2 "s4" 2 ].

(** Three students seen by a pair of clusters. *)
Definition three_pair_observations : list (string * nat * nat) :=
  [ ("s1", 1, 0); ("s2", 0, 2); ("s3", 1, 1) ].

(** ** The batch as a whole *)

(** The values the framework hands to the reducer for a key: those yielded
    under that key, in the order they were yielded. *)
Definition shuffle (k : key) (yielded : list (key * value)) : list value :=
  (filter (λ kv, kv.1 = k) yielded).*2.

(** Everything the classifier yields over a list of student vectors. *)
Definition mapper_output (params : mapper_params) (students : list student_vector)
    : list (key * value) :=
  students ≫= (λ item, (ClusteringGenerator.map params item).1).

(** The retained clusters of a student, in processing order. *)
Definition retained_clusters (item : student_vector) (max_distance : nat)
    (cs : list cluster) : list cluster :=
  filter (λ c, distance_to item c ≤ max_distance) cs.

(** A second student, with a score of 1 in lesson 3, and the parameters of a
    run over the three sample clusters. *)
Definition student_with_lesson : student_vector :=
  {| key_name := "student-2";
     vector := [ {| sv_type := DIMENSION_TYPE_LESSON; sv_id := "3"; sv_value := 1 |} ] |}.

Definition three_cluster_params : mapper_params :=
  ClusteringGenerator.build_additional_mapper_params
    [cluster_matching_all; cluster_one_off; cluster_three_off].

(** ** Identifiers *)

(** The character occurs in the text. *)
Fixpoint has_char (c : Ascii.ascii) (s : string) : bool :=
  match s with
  | "" => false
  | String x rest => if decide (x = c) then true else has_char c rest
  end.

(** Number of occurrences of the character in the text. *)
Fixpoint count_char (c : Ascii.ascii) (s : string) : nat :=
  match s with
  | "" => 0
  | String x rest => (if decide (x = c) then 1 else 0) + count_char c rest
  end.

(** ** Vector generation *)

(** An answer of the raw data as it is filed: under the id of its question
    dimension, with the timestamp of its submission. *)
Definition stamped_answer (activity_unit activity_lesson : option string)
    (sub : submission) (ans : raw_answer) : string * answer :=
  (pack_question_dimid activity_unit activity_lesson (question_id ans),
   {| weighted_score := answer_weighted_score ans;
      timestamp := submission_timestamp sub |}).

(** All the answers of an activity, filed, in the order of the raw data. *)
Definition stamped_answers (act : raw_activity) : list (string * answer) :=
  submissions act ≫= (λ sub,
    stamped_answer (unit_id (activity_fields act)) (lesson_id (activity_fields act)) sub
      <$> answers sub).

(** The type of the dimension is one of the three the generator knows. *)
Definition known_type (dim : dimension) : Prop :=
  DIM_TYPE dim = DIMENSION_TYPE_UNIT ∨ DIM_TYPE dim = DIMENSION_TYPE_LESSON
  ∨ DIM_TYPE dim = DIMENSION_TYPE_QUESTION.

(** The record can give the score of the lesson [dim_id]: it has a lesson id,
    which is [dim_id], and a last score. *)
Definition scores_lesson (dim_id : string) (a : activity) : Prop :=
  lesson_id a = Some dim_id ∧ is_Some (last_score a).

(** A small aggregate: one lesson activity with two submissions. *)
Definition sample_aggregate : student_aggregate :=
  {| aggregate_key_name := "student-1";
     assessments :=
       [ {| activity_fields :=
              {| unit_id := Some "7"; lesson_id := Some "1"; last_score := Some 0.5%Q |};
            submissions :=
              [ {| submission_timestamp := 5;
                   answers := [ {| question_id := Some "17";
                                   answer_weighted_score := Some 0.6%Q |} ] |};
                {| submission_timestamp := 9;
                   answers := [ {| question_id := Some "17";
                                   answer_weighted_score := Some 1%Q |} ] |} ] |} ] |}.

(** A catalog with the unit, its lesson and the question of the lesson. *)
Definition sample_catalog : list dimension :=
  [ unit_with_two_lessons;
    {| DIM_TYPE := DIMENSION_TYPE_LESSON; DIM_ID := "1";
       DIM_LOW := KeyAbsent; DIM_HIGH := KeyAbsent; DIM_EXTRA_INFO := None |};
    {| DIM_TYPE := DIMENSION_TYPE_QUESTION; DIM_ID := "7:1:17";
       DIM_LOW := KeyAbsent; DIM_HIGH := KeyAbsent; DIM_EXTRA_INFO := None |} ].

(** ** Catalog *)

(** The item is a scored lesson with title and id, or an included assessment
    with title. *)
Definition scored_lesson (item : content_item) : bool :=
  py_text_bool (item_title item) && py_text_bool (item_lesson_id item)
  && default false (tallied item).

Definition included_assessment (item : content_item) : bool :=
  py_text_bool (item_unit_id item) && py_text_bool (item_title item).

Definition counts_as_scored (item : content_item) : bool :=
  scored_lesson item || included_assessment item.

(** The lesson or unit dimension of an item, if it gets one. *)
Definition scored_dimension (item : content_item) : list (dimension * string) :=
  if scored_lesson item then
    [(catalog_dimension DIMENSION_TYPE_LESSON (default "" (item_lesson_id item)) None,
      default "" (item_title item))]
  else if included_assessment item then
    [(catalog_dimension DIMENSION_TYPE_UNIT (default "" (item_unit_id item)) None,
      default "" (item_title item))]
  else [].

(** All the dimensions of an item, and of the contents of a unit. *)
Definition item_dimensions (unit : unit_entry) (item : content_item)
    : list (dimension * string) :=
  scored_dimension item ++ (question_dimension unit item <$> questions item).

Definition contents_dimensions (unit : unit_entry) : list (dimension * string) :=
  contents unit ≫= item_dimensions unit.

(** The dimension of the unit itself, with the count in its extra info. *)
Definition unit_dimension (unit : unit_entry) (count : nat) : dimension * string :=
  (catalog_dimension DIMENSION_TYPE_UNIT (unit_entry_id unit)
     (Some {| unit_scored_lessons := Some (Z.of_nat count) |}),
   title unit).

(** A unit with a graded lesson, a lesson that is not graded and a
    post-assessment; each has one question. *)
Definition sample_unit : unit_entry :=
  {| unit_entry_id := "7"; title := "Unit 7";
     contents :=
       [ {| item_lesson_id := Some "1"; item_unit_id := None;
            item_title := Some "Lesson 1"; tallied := Some true;
            questions := [ {| question_entry_id := "17"; description := "Q17" |} ] |};
         {| item_lesson_id := Some "2"; item_unit_id := None;
            item_title := Some "Lesson 2"; tallied := Some false;
            questions := [ {| question_entry_id := "18"; description := "Q18" |} ] |};
         {| item_lesson_id := None; item_unit_id := Some "9";
            item_title := Some "Post"; tallied := None;
            questions := [ {| question_entry_id := "19"; description := "Q19" |} ] |} ] |}.

(** ** Editor *)

(** What [validate] makes of a bound when it reports nothing about it. *)
Definition bound_after_validation (float : string → option pyfloat) (f : field)
    : field :=
  if field_has_side f then
    match ClusterRESTHandler.to_float float f with
    | Some x => FieldNumber x
    | None => f
    end
  else FieldNone.

(** The bound is [None] or a float, which may be an infinity or
    not-a-number. *)
Definition none_or_number (f : field) : Prop :=
  f = FieldNone ∨ ∃ x, f = FieldNumber x.

(** When both bounds are floats, the test [high < low] of [validate] is
    false on them. *)
Definition well_ordered (d : validated_dimension) : Prop :=
  ∀ lo hi, validated_low d = FieldNumber lo → validated_high d = FieldNumber hi →
           float_lt hi lo = false.

(** When both bounds are finite the lower one is not above the upper one. *)
Definition finite_ordered (d : validated_dimension) : Prop :=
  ∀ lo hi, validated_low d = FieldNumber (Finite lo) →
           validated_high d = FieldNumber (Finite hi) → (lo <= hi)%Q.

(** A stand-in for [float] that reads five texts. *)
Definition sample_float (s : string) : option pyfloat :=
  if String.eqb s "10" then Some (Finite 10%Q)
  else if String.eqb s "20" then Some (Finite 20%Q)
  else if String.eqb s "0.5" then Some (Finite 0.5%Q)
  else if String.eqb s "nan" then Some NaN
  else if String.eqb s "inf" then Some PosInf
  else None.

(** An edited cluster vector: a range, a lower bound only, no bound, and a
    lower bound entered as ['nan']. *)
Definition sample_edited_vector : list edited_dimension :=
  [ {| edited_id := "7---u"; edited_low := FieldText "10";
       edited_high := FieldText "20"; edited_extra_info := None |};
    {| edited_id := "7:1:17---q"; edited_low := FieldText "0.5";
       edited_high := FieldText ""; edited_extra_info := None |};
    {| edited_id := "1---l"; edited_low := FieldAbsent;
       edited_high := FieldNone; edited_extra_info := None |};
    {| edited_id := "7:2:18---q"; edited_low := FieldText "nan";
       edited_high := FieldText "0.5"; edited_extra_info := None |} ].

(** What [validate] makes of [sample_edited_vector]. *)
Definition sample_validated_vector : list validated_dimension :=
  [ {| validated_id := "7"; validated_type := "u";
       validated_low := FieldNumber (Finite 10);
       validated_high := FieldNumber (Finite 20);
       validated_extra_info := None |};
    {| validated_id := "7:1:17"; validated_type := "q";
       validated_low := FieldNumber (Finite 0.5); validated_high := FieldNone;
       validated_extra_info := None |};
    {| validated_id := "1"; validated_type := "l";
       validated_low := FieldNone; validated_high := FieldNone;
       validated_extra_info := None |};
    {| validated_id := "7:2:18"; validated_type := "q";
       validated_low := FieldNumber NaN;
       validated_high := FieldNumber (Finite 0.5);
       validated_extra_info := None |} ].

(** The errors [validate] appends for one dimension: a bound that is present
    and cannot be read as a number, upper bound first, then an upper bound
    below the lower one. *)
Definition side_errors (float : string → option pyfloat) (index : nat) (f : field)
    : list validation_error :=
  if field_has_side f then
    match ClusterRESTHandler.to_float float f with
    | Some _ => []
    | None => [NonNumeric index]
    end
  else [].

Definition range_errors (index : nat) (low high : field) : list validation_error :=
  if field_has_side low && field_has_side high && py2_lt high low
  then [WrongRange index] else [].

Definition dimension_errors (float : string → option pyfloat) (index : nat)
    (dim : edited_dimension) : list validation_error :=
  side_errors float index (edited_high dim)
  ++ side_errors float index (edited_low dim)
  ++ range_errors index (bound_after_validation float (edited_low dim))
       (bound_after_validation float (edited_high dim)).

(** * Properties *)

(** ** Auxiliary facts on lists *)

Lemma filter_none {A} (P : A → Prop) `{!∀ x, Decision (P x)} (l : list A) :
  (∀ x, x ∈ l → ¬ P x) → filter P l = [].
Proof.
  induction l as [|x l IH]; intros Hall; [done|].
  rewrite filter_cons. destruct (decide (P x)) as [HP|_].
  - exfalso. apply (Hall x); [left|done].
  - apply IH. intros y Hy. apply Hall. by right.
Qed.

Lemma omap_cons {A B} (f : A → option B) (x : A) (l : list A) :
  omap f (x :: l) = match f x with Some y => y :: omap f l | None => omap f l end.
Proof. done. Qed.

(** ** Question scoring *)

Section QuestionScore.
Import StudentVectorGenerator.

Lemma truthy_score_Some a :
  truthy_score a = true → ∃ q, weighted_score a = Some q ∧ py_bool q = true.
Proof. unfold truthy_score. destruct (weighted_score a); naive_solver. Qed.

(** The state of the loop after any list of answers: the timestamp is the
    largest one seen on a true score (or still [0]), and the scores are
    those of the true-scored answers at that timestamp, in order. *)
Lemma question_loop_invariant (data : list answer) :
  let st := fold_left question_step data ([], 0%Z) in
  (0 ≤ st.2)%Z
  ∧ (∀ a, a ∈ data → truthy_score a = true → (timestamp a ≤ st.2)%Z)
  ∧ (st.2 = 0%Z ∨ ∃ a, a ∈ data ∧ truthy_score a = true ∧ timestamp a = st.2)
  ∧ st.1 = omap weighted_score
             (filter (λ a, truthy_score a = true ∧ timestamp a = st.2) data).
Proof.
  induction data as [|a data IH] using rev_ind; simpl.
  { repeat split; [lia | by intros a Ha%elem_of_nil | by left]. }
  rewrite fold_left_app. simpl in *.
  destruct (fold_left question_step data ([], 0%Z)) as [ls lt] eqn:Est.
  simpl in IH. destruct IH as (Hpos & Hmax & Hwit & Hls).
  unfold question_step.
  destruct (weighted_score a) as [score|] eqn:Hsc.
  - destruct (py_bool score) eqn:Hb; simpl.
    + assert (Ht : truthy_score a = true) by (unfold truthy_score; by rewrite Hsc).
      destruct (Z.ltb_spec lt (timestamp a)) as [Hlt|Hge]; simpl.
      * repeat split; [lia| | |].
        -- intros b [Hb'| ->%list_elem_of_singleton]%elem_of_app Hbt; [|lia].
           specialize (Hmax b Hb' Hbt). lia.
        -- right. exists a. split; [apply elem_of_app; right; by apply list_elem_of_singleton|done].
        -- rewrite filter_app, omap_app.
           rewrite (filter_none _ data).
           2:{ intros b Hb' [Hbt Heq]. specialize (Hmax b Hb' Hbt). lia. }
           rewrite filter_cons_True by done. simpl. by rewrite Hsc.
      * destruct (Z.eqb_spec (timestamp a) lt) as [Heq|Hne]; simpl.
        -- repeat split; [lia| | |].
           ++ intros b [Hb'| ->%list_elem_of_singleton]%elem_of_app Hbt; [|lia].
              by apply Hmax.
           ++ right. exists a. split; [apply elem_of_app; right; by apply list_elem_of_singleton|done].
           ++ rewrite filter_app, omap_app, <- Hls.
              rewrite filter_cons_True by done. simpl. by rewrite Hsc.
        -- repeat split; [lia| | |].
           ++ intros b [Hb'| ->%list_elem_of_singleton]%elem_of_app Hbt; [|lia].
              by apply Hmax.
           ++ destruct Hwit as [?|(b & ? & ? & ?)]; [by left|right].
              exists b. split; [apply elem_of_app; by left|done].
           ++ rewrite filter_app, omap_app, <- Hls.
              rewrite filter_cons_False by (by intros [_ ?]).
              simpl. by rewrite app_nil_r.
    + assert (Ht : truthy_score a = false) by (unfold truthy_score; by rewrite Hsc).
      simpl. repeat split; [lia| | |].
      * intros b [Hb'| ->%list_elem_of_singleton]%elem_of_app Hbt; [|congruence].
        by apply Hmax.
      * destruct Hwit as [?|(b & ? & ? & ?)]; [by left|right].
        exists b. split; [apply elem_of_app; by left|done].
      * rewrite filter_app, omap_app, <- Hls.
        rewrite filter_cons_False by (rewrite Ht; by intros [? _]).
        simpl. by rewrite app_nil_r.
  - assert (Ht : truthy_score a = false) by (unfold truthy_score; by rewrite Hsc).
    simpl. repeat split; [lia| | |].
    + intros b [Hb'| ->%list_elem_of_singleton]%elem_of_app Hbt; [|congruence].
      by apply Hmax.
    + destruct Hwit as [?|(b & ? & ? & ?)]; [by left|right].
      exists b. split; [apply elem_of_app; by left|done].
    + rewrite filter_app, omap_app, <- Hls.
      rewrite filter_cons_False by (rewrite Ht; by intros [? _]).
      simpl. by rewrite app_nil_r.
Qed.

(** An answer whose score Python takes as false (zero, or missing) leaves
    the state of the loop as it was, wherever it stands in the list. *)
Lemma question_step_falsy (st : list Q * Z) (a : answer) :
  truthy_score a = false → question_step st a = st.
Proof.
  unfold truthy_score, question_step. destruct st as [ls lt].
  destruct (weighted_score a) as [score|]; [|done]. by intros ->.
Qed.

Lemma question_score_ignores_falsy (before after : list answer) (a : answer) :
  truthy_score a = false →
  _get_question_score (before ++ a :: after) = _get_question_score (before ++ after).
Proof.
  intros Ha. unfold _get_question_score.
  rewrite !fold_left_app. cbn [fold_left]. by rewrite question_step_falsy.
Qed.

(** The two question examples of the specification. *)
Example question_score_latest_wins :
  (_get_question_score
     [ {| weighted_score := Some 0.6%Q; timestamp := 5 |};
       {| weighted_score := Some 0.8%Q; timestamp := 5 |};
       {| weighted_score := Some 1%Q; timestamp := 9 |} ] == 1)%Q.
Proof. vm_compute. reflexivity. Qed.

Example question_score_tie :
  (_get_question_score
     [ {| weighted_score := Some 0.6%Q; timestamp := 9 |};
       {| weighted_score := Some 1%Q; timestamp := 9 |} ] == 0.8)%Q.
Proof. vm_compute. reflexivity. Qed.

(** C1 fails on answers scored zero. The claim, like the docstring of
    [_get_question_score] ("the last weighted score obtained", and the
    average "in that submission"), takes the answers at the largest timestamp
    over all the answers. The loop tests [if score and ...], and a score of 0
    is false in Python, so an answer scored zero is passed over. On
    [answers_zero_last] (0.6 at time 5, then 0 at time 9) the code returns
    0.6 where the latest answer scored 0; on [answers_zero_tie] (0 and 1,
    both at time 9) it returns 1 where the mean of the tie is 0.5. *)
Theorem question_score_skips_zero_scores :
  (_get_question_score answers_zero_last == 0.6)%Q
  ∧ (question_score_as_stated answers_zero_last == 0)%Q
  ∧ ¬ (_get_question_score answers_zero_last
       == question_score_as_stated answers_zero_last)%Q
  ∧ (_get_question_score answers_zero_tie == 1)%Q
  ∧ (question_score_as_stated answers_zero_tie == 0.5)%Q
  ∧ ¬ (_get_question_score answers_zero_tie
       == question_score_as_stated answers_zero_tie)%Q.
Proof.
  repeat split; try (vm_compute; reflexivity); vm_compute; discriminate.
Qed.

(** The same in general: putting an answer scored zero anywhere among the
    answers of a question, at any time, changes nothing to its score. *)
Lemma question_score_ignores_zero (before after : list answer) (t : Z) :
  _get_question_score
    (before ++ {| weighted_score := Some 0%Q; timestamp := t |} :: after)
  = _get_question_score (before ++ after).
Proof. by apply question_score_ignores_falsy. Qed.

End QuestionScore.

(** ** Unit scoring *)

Section UnitScore.
Import StudentVectorGenerator.

(** The summing loop adds up exactly the matching scores, in order. *)
Lemma unit_loop_sum (dimension : dimension) (data : list activity) (acc : Q) :
  fold_left (unit_step dimension) data acc
  = fold_left Qplus (matching_scores (DIM_ID dimension) data) acc.
Proof.
  unfold matching_scores. revert acc.
  induction data as [|s data IH]; intros acc; [done|].
  simpl. rewrite IH, filter_cons. unfold unit_step.
  destruct (unit_id s) as [u|] eqn:Hu.
  - destruct (decide (Some u = Some (DIM_ID dimension))) as [Heq|Hne].
    + injection Heq as ->. rewrite omap_cons.
      destruct (last_score s); [by rewrite decide_True|done].
    + destruct (last_score s); [|done].
      rewrite decide_False; [done|]. by intros ->.
  - by rewrite decide_False.
Qed.

Lemma scored_lessons_max (dimension : dimension) :
  scored_lessons dimension = Z.max (lesson_count dimension) 1.
Proof.
  unfold scored_lessons, lesson_count.
  destruct (DIM_EXTRA_INFO dimension) as [[[n|]]|]; simpl; done.
Qed.

(** C7. The unit score is the sum of [last_score] over the records whose
    unit id is the dimension id, divided by max(scored-lesson count, 1), the
    count being 1 when the extra info or the count is missing. The divisor is
    at least 1 and the division never fails. With count 2 and lesson scores
    0.5 and 1 the score is 0.75. *)
Theorem unit_score_average (data : list activity) (dimension : dimension) :
  (1 ≤ scored_lessons dimension)%Z
  ∧ scored_lessons dimension = Z.max (lesson_count dimension) 1
  ∧ _get_unit_score data dimension
    = Some (fsum (matching_scores (DIM_ID dimension) data)
            / inject_Z (Z.max (lesson_count dimension) 1))%Q
  ∧ (∃ q, _get_unit_score two_lesson_records unit_with_two_lessons = Some q
          ∧ (q == 0.75)%Q).
Proof.
  pose proof (scored_lessons_max dimension) as Hmax.
  split; [lia|]. split; [done|]. split.
  - unfold _get_unit_score, py_div. rewrite unit_loop_sum, Hmax.
    destruct (Z.eqb_spec (Z.max (lesson_count dimension) 1) 0) as [H0|_]; [lia|done].
  - eexists. split; [reflexivity|]. vm_compute. reflexivity.
Qed.

End UnitScore.

(** ** Distance engine *)

Section Distance.
Variable student_vector : list student_dimension.

Lemma hamming_step_rejects (distance : nat) (dim : dimension) :
  hamming_step student_vector distance dim
  = distance + (if rejects dim (used_value student_vector dim) then 1 else 0).
Proof.
  unfold hamming_step, rejects, used_value.
  destruct (_ || _); lia.
Qed.

Lemma hamming_loop_from (vector : list dimension) (distance : nat) :
  fold_left (hamming_step student_vector) vector distance
  = distance + hamming_distance vector student_vector.
Proof.
  unfold hamming_distance. revert distance.
  induction vector as [|dim vector IH]; intros distance; simpl; [lia|].
  rewrite IH, (IH (hamming_step _ 0 dim)), !hamming_step_rejects. lia.
Qed.

Lemma hamming_distance_cons (dim : dimension) (vector : list dimension) :
  hamming_distance (dim :: vector) student_vector
  = (if rejects dim (used_value student_vector dim) then 1 else 0)
    + hamming_distance vector student_vector.
Proof.
  unfold hamming_distance at 1. simpl.
  rewrite hamming_loop_from, hamming_step_rejects. lia.
Qed.

Lemma hamming_distance_app (v1 v2 : list dimension) :
  hamming_distance (v1 ++ v2) student_vector
  = hamming_distance v1 student_vector + hamming_distance v2 student_vector.
Proof.
  induction v1 as [|dim v1 IH]; [done|].
  simpl. rewrite !hamming_distance_cons, IH. lia.
Qed.

Lemma get_dimension_value_None (dim : dimension) :
  ¬ has_entry student_vector dim →
  StudentVector.get_dimension_value student_vector (DIM_ID dim) (DIM_TYPE dim) = None.
Proof.
  intros Hno. unfold StudentVector.get_dimension_value.
  rewrite filter_none; [done|].
  intros e He [Hid Hty]. apply Hno. by exists e.
Qed.

Lemma unbounded_never_rejects (dim : dimension) (value : Q) :
  _has_left_side dim = false → _has_right_side dim = false →
  rejects dim value = false.
Proof.
  intros Hl Hr. unfold rejects, fits_left_side, fits_right_side.
  by rewrite Hl, Hr.
Qed.

(** C8. When the student vector has no entry for a cluster dimension, the
    look-up finds nothing, the loop goes on with the value 0, so the
    dimension adds 1 to the distance exactly when its bounds reject 0; the
    distance is computed all the same. *)
Theorem missing_dimension_counts_as_zero (v1 v2 : list dimension) (dim : dimension) :
  ¬ has_entry student_vector dim →
  StudentVector.get_dimension_value student_vector (DIM_ID dim) (DIM_TYPE dim) = None
  ∧ hamming_step student_vector 0 dim = (if rejects dim 0 then 1 else 0)
  ∧ hamming_distance (v1 ++ dim :: v2) student_vector
    = hamming_distance v1 student_vector
      + (if rejects dim 0 then 1 else 0)
      + hamming_distance v2 student_vector.
Proof.
  intros Hno. pose proof (get_dimension_value_None dim Hno) as Hnone.
  split; [done|]. split.
  - rewrite hamming_step_rejects. unfold used_value. by rewrite Hnone.
  - rewrite hamming_distance_app, hamming_distance_cons.
    unfold used_value. rewrite Hnone. simpl. lia.
Qed.

(** C9. The distance is at least 0 and at most the number of dimensions of
    the cluster vector; a dimension with neither bound rejects no value and
    can be dropped from the vector without changing the distance; the
    distance to an empty vector is 0. *)
Theorem hamming_distance_bounds (vector : list dimension) :
  0 ≤ hamming_distance vector student_vector ≤ length vector
  ∧ hamming_distance [] student_vector = 0
  ∧ (∀ dim : dimension,
       _has_left_side dim = false → _has_right_side dim = false →
       (∀ value, rejects dim value = false)
       ∧ ∀ v1 v2, hamming_distance (v1 ++ dim :: v2) student_vector
                  = hamming_distance (v1 ++ v2) student_vector).
Proof.
  split; [split; [lia|]|split; [done|]].
  - induction vector as [|dim vector IH]; [done|].
    rewrite hamming_distance_cons. simpl. destruct (rejects _ _); lia.
  - intros dim Hl Hr. split; [intros; by apply unbounded_never_rejects|].
    intros v1 v2. rewrite !hamming_distance_app, hamming_distance_cons.
    by rewrite unbounded_never_rejects.
Qed.

End Distance.

Lemma missing_dimension_counts_as_zero_witness :
  hamming_distance ([lesson_unbounded] ++ lesson_at_least_one :: []) [] = 0 + 1 + 0.
Proof.
  apply (missing_dimension_counts_as_zero [] [lesson_unbounded] [] lesson_at_least_one).
  intros (e & He & _). by apply elem_of_nil in He.
Defined.

Lemma hamming_distance_bounds_witness :
  hamming_distance ([lesson_at_least_one] ++ lesson_unbounded :: [lesson_at_least_one]) []
  = hamming_distance ([lesson_at_least_one] ++ [lesson_at_least_one]) [].
Proof.
  apply (proj2 (proj2 (proj2 (hamming_distance_bounds [] [])) lesson_unbounded
                  eq_refl eq_refl)).
Defined.

(** The distance example of the specification: bounds 10 and 20 reject the
    value 25 and accept the value 15. *)
Example distance_range_example :
  let dim := {| DIM_TYPE := DIMENSION_TYPE_UNIT; DIM_ID := "1";
                DIM_LOW := Number 10; DIM_HIGH := Number 20;
                DIM_EXTRA_INFO := None |} in
  hamming_distance [dim] [ {| sv_type := "u"; sv_id := "1"; sv_value := 25 |} ] = 1
  ∧ hamming_distance [dim] [ {| sv_type := "u"; sv_id := "1"; sv_value := 15 |} ] = 0.
Proof. split; reflexivity. Qed.

(** ** Cluster classifier *)

Section Classifier.
Variable item : student_vector.
Variable maxd : nat.

Local Abbreviation step := (ClusteringGenerator.map_step item maxd).
Local Abbreviation loop cs := (fold_left step cs (∅, [])).
Local Abbreviation single c :=
  (ClusterKey (cluster_id c), Tuple2 (key_name item) (distance_to item c)).

Lemma step_skip st c : maxd < distance_to item c → step st c = st.
Proof.
  intros Hd. destruct st as [dict out]. unfold ClusteringGenerator.map_step.
  fold (distance_to item c).
  destruct (Nat.ltb_spec maxd (distance_to item c)); [done|lia].
Qed.

Lemma step_keep dict out c :
  retained item maxd c →
  step (dict, out) c
  = (<[cluster_id c := distance_to item c]> dict,
     out ++ ClusteringGenerator.yield_pairs item c (distance_to item c) dict
         ++ [single c]).
Proof.
  unfold retained. intros Hd. unfold ClusteringGenerator.map_step.
  fold (distance_to item c).
  destruct (Nat.ltb_spec maxd (distance_to item c)); [lia|done].
Qed.

Lemma elem_of_yield_pairs c d (dict : gmap Z nat) k v :
  (k, v) ∈ ClusteringGenerator.yield_pairs item c d dict
  ↔ ∃ a d2, dict !! a = Some d2 ∧ k = PairKey a (cluster_id c)
            ∧ v = Tuple3 (key_name item) d d2.
Proof.
  unfold ClusteringGenerator.yield_pairs. rewrite list_elem_of_fmap. split.
  - intros ([a d2] & Heq & Hin). apply elem_of_map_to_list in Hin.
    injection Heq as -> ->. by exists a, d2.
  - intros (a & d2 & Hin & -> & ->). exists (a, d2).
    split; [done|]. by apply elem_of_map_to_list.
Qed.

(** What the loop has yielded and stored after any list of clusters. *)
Lemma loop_retained_only (cs : list cluster) :
  (∀ a d, (loop cs).1 !! a = Some d →
     ∃ ca, ca ∈ cs ∧ cluster_id ca = a ∧ retained item maxd ca
           ∧ distance_to item ca = d)
  ∧ (∀ ca, ca ∈ cs → retained item maxd ca → is_Some ((loop cs).1 !! cluster_id ca))
  ∧ (∀ b v, (ClusterKey b, v) ∈ (loop cs).2 ↔
       ∃ cb, cb ∈ cs ∧ cluster_id cb = b ∧ retained item maxd cb
             ∧ v = Tuple2 (key_name item) (distance_to item cb))
  ∧ (∀ a b v, (PairKey a b, v) ∈ (loop cs).2 →
       (∃ ca, ca ∈ cs ∧ cluster_id ca = a ∧ retained item maxd ca)
       ∧ (∃ cb, cb ∈ cs ∧ cluster_id cb = b ∧ retained item maxd cb)).
Proof.
  induction cs as [|c cs IH] using rev_ind.
  { simpl. repeat split.
    - intros a d Hl. by rewrite lookup_empty in Hl.
    - intros ca Hca. by apply elem_of_nil in Hca.
    - intros Hin. by apply elem_of_nil in Hin.
    - intros (cb & Hcb & _). by apply elem_of_nil in Hcb.
    - by apply elem_of_nil in H.
    - by apply elem_of_nil in H. }
  rewrite fold_left_app. simpl.
  destruct (loop cs) as [dict out]. simpl in IH.
  destruct IH as (Hdict & Hdom & Hone & Hpair).
  destruct (le_lt_dec (distance_to item c) maxd) as [Hkeep|Hskip].
  2:{ rewrite step_skip by done. simpl. repeat split.
      - intros a d Hl. destruct (Hdict a d Hl) as (ca & ? & ?).
        exists ca. split; [apply elem_of_app; by left|done].
      - intros ca [Hca| ->%list_elem_of_singleton]%elem_of_app Hr.
        + by apply Hdom.
        + unfold retained in Hr. lia.
      - intros Hin. apply Hone in Hin as (cb & ? & ?).
        exists cb. split; [apply elem_of_app; by left|done].
      - intros (cb & [Hcb| ->%list_elem_of_singleton]%elem_of_app & Hid & Hr & Hv).
        + apply Hone. by exists cb.
        + unfold retained in Hr. lia.
      - destruct (Hpair a b v H) as [(ca & ? & ?) _].
        exists ca. split; [apply elem_of_app; by left|done].
      - destruct (Hpair a b v H) as [_ (cb & ? & ?)].
        exists cb. split; [apply elem_of_app; by left|done]. }
  rewrite step_keep by done. simpl.
  assert (Hc : c ∈ cs ++ [c]) by (apply elem_of_app; right; by left).
  repeat split.
  - intros a d Hl. destruct (decide (a = cluster_id c)) as [->|Hne].
    + rewrite lookup_insert_eq in Hl. injection Hl as <-. by exists c.
    + rewrite lookup_insert_ne in Hl by done.
      destruct (Hdict a d Hl) as (ca & ? & ?).
      exists ca. split; [apply elem_of_app; by left|done].
  - intros ca [Hca| ->%list_elem_of_singleton]%elem_of_app Hr.
    + destruct (decide (cluster_id ca = cluster_id c)) as [->|Hne].
      * rewrite lookup_insert_eq. by eexists.
      * rewrite lookup_insert_ne by done. by apply Hdom.
    + rewrite lookup_insert_eq. by eexists.
  - rewrite !elem_of_app, elem_of_yield_pairs, list_elem_of_singleton.
    intros [Hin|[(a & d2 & _ & Hk & _)|Heq]].
    + apply Hone in Hin as (cb & ? & ?).
      exists cb. split; [apply elem_of_app; by left|done].
    + discriminate Hk.
    + injection Heq as -> ->. by exists c.
  - rewrite !elem_of_app, list_elem_of_singleton.
    intros (cb & [Hcb| ->%list_elem_of_singleton]%elem_of_app & Hid & Hr & Hv).
    + left. apply Hone. by exists cb.
    + right. right. by rewrite <- Hid, Hv.
  - revert H. rewrite !elem_of_app, elem_of_yield_pairs, list_elem_of_singleton.
    intros [Hin|[(a' & d2 & Hl & Hk & _)|Heq]]; [| |discriminate Heq].
    + destruct (Hpair a b v Hin) as [(ca & ? & ?) _].
      exists ca. split; [apply elem_of_app; by left|done].
    + injection Hk as -> ->. destruct (Hdict a' d2 Hl) as (ca & ? & ? & ? & ?).
      exists ca. split; [apply elem_of_app; by left|done].
  - revert H. rewrite !elem_of_app, elem_of_yield_pairs, list_elem_of_singleton.
    intros [Hin|[(a' & d2 & Hl & Hk & _)|Heq]]; [| |discriminate Heq].
    + destruct (Hpair a b v Hin) as [_ (cb & ? & ?)].
      exists cb. split; [apply elem_of_app; by left|done].
    + injection Hk as -> ->. by exists c.
Qed.

Lemma keys_of_yield_pairs c d (dict : gmap Z nat) :
  keys_of (ClusteringGenerator.yield_pairs item c d dict)
  = (λ a, PairKey a (cluster_id c)) <$> (map_to_list dict).*1.
Proof.
  unfold keys_of, ClusteringGenerator.yield_pairs.
  rewrite <- !list_fmap_compose. apply list_fmap_ext. by intros _ [a d2] _.
Qed.

Lemma elem_of_keys_of (yielded : list (key * value)) k :
  k ∈ keys_of yielded ↔ ∃ v, (k, v) ∈ yielded.
Proof.
  unfold keys_of. rewrite list_elem_of_fmap. split.
  - intros ([k' v] & -> & Hin). by exists v.
  - intros (v & Hin). by exists (k, v).
Qed.

(** With pairwise distinct cluster ids: the stored distance of every retained
    cluster, the exact set of pair observations, and no key yielded twice. *)
Lemma loop_pairs (cs : list cluster) :
  NoDup (cluster_id <$> cs) →
  (∀ ca, ca ∈ cs → retained item maxd ca →
     (loop cs).1 !! cluster_id ca = Some (distance_to item ca))
  ∧ (∀ a b v, (PairKey a b, v) ∈ (loop cs).2 ↔
       ∃ ca cb, retained_pair item maxd cs ca cb
                ∧ a = cluster_id ca ∧ b = cluster_id cb
                ∧ v = Tuple3 (key_name item) (distance_to item cb) (distance_to item ca))
  ∧ NoDup (keys_of (loop cs).2).
Proof.
  induction cs as [|c cs IH] using rev_ind; intros Hnd.
  { simpl. repeat split.
    - intros ca Hca. by apply elem_of_nil in Hca.
    - intros Hin. by apply elem_of_nil in Hin.
    - intros (ca & cb & (i & j & Hi & _) & _). by rewrite lookup_nil in Hi.
    - constructor. }
  rewrite fmap_app in Hnd. apply NoDup_app in Hnd as (Hnd & Hfresh & _).
  assert (Hnew : ∀ ca, ca ∈ cs → cluster_id ca ≠ cluster_id c).
  { intros ca Hca Heq. apply (Hfresh (cluster_id ca)).
    - by apply list_elem_of_fmap_2.
    - rewrite Heq. simpl. by left. }
  destruct (IH Hnd) as (Hdist & Hpairs & Hkeys). clear IH.
  destruct (loop_retained_only cs) as (Hdict & _ & Hone & Hpair).
  rewrite fold_left_app. simpl.
  destruct (loop cs) as [dict out].
  simpl in Hdist, Hpairs, Hkeys, Hdict, Hone, Hpair.
  assert (Hmono : ∀ ca cb, retained_pair item maxd cs ca cb →
                           retained_pair item maxd (cs ++ [c]) ca cb).
  { intros ca cb (i & j & Hi & Hj & Hij & Hra & Hrb). exists i, j.
    repeat split; try done; by apply lookup_app_l_Some. }
  assert (Hinv : ∀ ca cb, retained_pair item maxd (cs ++ [c]) ca cb →
                 retained_pair item maxd cs ca cb
                 ∨ (cb = c ∧ ca ∈ cs ∧ retained item maxd ca ∧ retained item maxd c)).
  { intros ca cb (i & j & Hi & Hj & Hij & Hra & Hrb).
    apply lookup_snoc_Some in Hj as [[Hlt Hj]|[Hj ->]].
    - left. exists i, j. repeat split; try done.
      rewrite lookup_app_l in Hi by lia. done.
    - right. rewrite lookup_app_l in Hi by lia.
      repeat split; try done. by apply list_elem_of_lookup_2 in Hi. }
  destruct (le_lt_dec (distance_to item c) maxd) as [Hkeep|Hskip].
  2:{ rewrite step_skip by done. simpl. repeat split.
      - intros ca [Hca| ->%list_elem_of_singleton]%elem_of_app Hr.
        + by apply Hdist.
        + unfold retained in Hr. lia.
      - intros Hin. apply Hpairs in Hin as (ca & cb & Hp & ?).
        exists ca, cb. split; [by apply Hmono|done].
      - intros (ca & cb & Hp & Hv). apply Hpairs.
        destruct (Hinv ca cb Hp) as [Hp'|(_ & _ & _ & Hr)].
        + by exists ca, cb.
        + unfold retained in Hr. lia.
      - done. }
  rewrite step_keep by done. simpl. repeat split.
  - intros ca [Hca| ->%list_elem_of_singleton]%elem_of_app Hr.
    + rewrite lookup_insert_ne by (intros Heq; by apply (Hnew ca Hca)).
      by apply Hdist.
    + by rewrite lookup_insert_eq.
  - rewrite !elem_of_app, elem_of_yield_pairs, list_elem_of_singleton.
    intros [Hin|[(a' & d2 & Hl & Hk & Hv)|Heq]]; [| |discriminate Heq].
    + apply Hpairs in Hin as (ca & cb & Hp & ?).
      exists ca, cb. split; [by apply Hmono|done].
    + injection Hk as -> ->. destruct (Hdict a' d2 Hl) as (ca & Hca & Hid & Hr & Hd).
      exists ca, c. repeat split; try done; [|by rewrite Hd].
      apply list_elem_of_lookup_1 in Hca as [i Hi].
      exists i, (length cs). repeat split; try done.
      * by apply lookup_app_l_Some.
      * by apply list_lookup_middle.
      * by apply lookup_lt_Some in Hi.
  - rewrite !elem_of_app, elem_of_yield_pairs.
    intros (ca & cb & Hp & -> & -> & ->).
    destruct (Hinv ca cb Hp) as [Hp'|(-> & Hca & Hra & _)].
    + left. apply Hpairs. by exists ca, cb.
    + right. left. exists (cluster_id ca), (distance_to item ca).
      split; [by apply Hdist|done].
  - unfold keys_of in *. rewrite !fmap_app. apply NoDup_app. split; [done|]. split.
    + intros k Hk [Hin|Hin]%elem_of_app.
      * change (k ∈ keys_of (ClusteringGenerator.yield_pairs item c
                               (distance_to item c) dict)) in Hin.
        rewrite keys_of_yield_pairs in Hin.
        apply list_elem_of_fmap in Hin as (a & -> & _).
        apply elem_of_keys_of in Hk as [v Hv].
        destruct (Hpair _ _ _ Hv) as [_ (cb & Hcb & Hid & _)].
        by apply (Hnew cb Hcb).
      * simpl in Hin. apply list_elem_of_singleton in Hin as ->.
        apply elem_of_keys_of in Hk as [v Hv].
        apply Hone in Hv as (cb & Hcb & Hid & _).
        by apply (Hnew cb Hcb).
    + apply NoDup_app. split; [|split].
      * change (NoDup (keys_of (ClusteringGenerator.yield_pairs item c
                                  (distance_to item c) dict))).
        rewrite keys_of_yield_pairs. apply NoDup_fmap_2.
        -- by intros a1 a2 [= ->].
        -- apply NoDup_fst_map_to_list.
      * intros k Hk Hin. simpl in Hin. apply list_elem_of_singleton in Hin as ->.
        change (ClusterKey (cluster_id c)
                ∈ keys_of (ClusteringGenerator.yield_pairs item c
                             (distance_to item c) dict)) in Hk.
        rewrite keys_of_yield_pairs in Hk.
        by apply list_elem_of_fmap in Hk as (a & [=] & _).
      * simpl. apply NoDup_singleton.
Qed.

End Classifier.

Lemma map_unfold (params : mapper_params) (item : student_vector) :
  ClusteringGenerator.map params item
  = let st := fold_left (ClusteringGenerator.map_step item (max_distance params))
                (clusters params) (∅, []) in
    (st.2, {| sc_key_name := key_name item; sc_clusters := st.1 |}).
Proof. unfold ClusteringGenerator.map. by destruct (fold_left _ _ _). Qed.

Lemma NoDup_filter_eq_length {A} `{EqDecision A} (l : list A) (x : A) :
  NoDup l → x ∈ l → length (filter (λ y, y = x) l) = 1.
Proof.
  induction 1 as [|y l Hy Hnd IH]; intros Hin; [by apply elem_of_nil in Hin|].
  rewrite filter_cons. destruct (decide (y = x)) as [->|Hne].
  - simpl. rewrite filter_none; [done|]. by intros z Hz ->.
  - apply IH. by apply elem_of_cons in Hin as [->|Hin].
Qed.

(** What the mapper yields under a pair key, for pairwise distinct cluster
    ids: one observation per retained pair, keyed (earlier, later), carrying
    the distance to the later cluster and then the distance to the earlier
    one. *)
Lemma map_pair_values (params : mapper_params) (item : student_vector) :
  NoDup (cluster_id <$> clusters params) →
  ∀ a b v,
    (PairKey a b, v) ∈ (ClusteringGenerator.map params item).1 ↔
    ∃ ca cb, retained_pair item (max_distance params) (clusters params) ca cb
             ∧ a = cluster_id ca ∧ b = cluster_id cb
             ∧ v = Tuple3 (key_name item) (distance_to item cb) (distance_to item ca).
Proof.
  intros Hnd. rewrite map_unfold. simpl.
  by destruct (loop_pairs item (max_distance params) (clusters params) Hnd) as (_ & ? & _).
Qed.

(** C2 at a failing input. A student at distance 0 from cluster 1 and at
    distance 1 from cluster 2, in that processing order: the value yielded
    under the key (1, 2) is (student, 1, 0), the distance to the second
    cluster of the key followed by the distance to the first. *)
Theorem pair_value_puts_later_cluster_first :
  distance_to blank_student cluster_matching_all = 0
  ∧ distance_to blank_student cluster_one_off = 1
  ∧ (ClusteringGenerator.map
       (ClusteringGenerator.build_additional_mapper_params
          [cluster_matching_all; cluster_one_off])
       blank_student).1
    = [ (ClusterKey 1, Tuple2 "student-1" 0);
        (PairKey 1 2, Tuple3 "student-1" 1 0);
        (ClusterKey 2, Tuple2 "student-1" 1) ].
Proof. repeat split; by vm_compute. Qed.

(** C5. The default threshold is 2. A cluster is skipped exactly when its
    distance is greater than the threshold, so a cluster at the threshold is
    kept. The single-cluster observations are exactly those of the retained
    clusters, the stored dictionary has exactly the ids of the retained
    clusters, each with the distance of a retained cluster of that id, and
    both ids of a yielded pair key are ids of retained clusters. *)
Theorem threshold_filter (params : mapper_params) (item : student_vector) :
  let maxd := max_distance params in
  let yielded := (ClusteringGenerator.map params item).1 in
  let stored := sc_clusters (ClusteringGenerator.map params item).2 in
  ClusteringGenerator.MAX_DISTANCE = 2
  ∧ (∀ cs, max_distance (ClusteringGenerator.build_additional_mapper_params cs) = 2)
  ∧ (∀ st c, maxd < distance_to item c → ClusteringGenerator.map_step item maxd st c = st)
  ∧ (∀ dict out c, distance_to item c ≤ maxd →
       ClusteringGenerator.map_step item maxd (dict, out) c
       = (<[cluster_id c := distance_to item c]> dict,
          out ++ ClusteringGenerator.yield_pairs item c (distance_to item c) dict
              ++ [(ClusterKey (cluster_id c), Tuple2 (key_name item) (distance_to item c))]))
  ∧ (∀ b v, (ClusterKey b, v) ∈ yielded ↔
       ∃ c, c ∈ clusters params ∧ cluster_id c = b ∧ distance_to item c ≤ maxd
            ∧ v = Tuple2 (key_name item) (distance_to item c))
  ∧ (∀ a, is_Some (stored !! a) ↔
       ∃ c, c ∈ clusters params ∧ cluster_id c = a ∧ distance_to item c ≤ maxd)
  ∧ (∀ a d, stored !! a = Some d →
       ∃ c, c ∈ clusters params ∧ cluster_id c = a ∧ distance_to item c ≤ maxd
            ∧ distance_to item c = d)
  ∧ (∀ a b v, (PairKey a b, v) ∈ yielded →
       (∃ c, c ∈ clusters params ∧ cluster_id c = a ∧ distance_to item c ≤ maxd)
       ∧ (∃ c, c ∈ clusters params ∧ cluster_id c = b ∧ distance_to item c ≤ maxd)).
Proof.
  intros maxd yielded stored. subst yielded stored. rewrite map_unfold. simpl.
  destruct (loop_retained_only item maxd (clusters params))
    as (Hdict & Hdom & Hone & Hpair).
  split; [done|]. split; [done|].
  split; [intros st c; apply step_skip|].
  split; [intros dict out c; apply step_keep|].
  split; [done|]. split; [|split; [done|done]].
  intros a. split.
  - intros [d Hd]. destruct (Hdict a d Hd) as (c & ? & ? & ? & _). by exists c.
  - intros (c & Hc & <- & Hr). by apply Hdom.
Qed.

Lemma threshold_filter_witness :
  ∃ c, c ∈ [cluster_matching_all; cluster_one_off; cluster_three_off]
       ∧ cluster_id c = 2%Z ∧ distance_to blank_student c ≤ 2
       ∧ distance_to blank_student c = 1.
Proof.
  apply (proj1 (proj2 (proj2 (proj2 (proj2 (proj2 (proj2
    (threshold_filter
       (ClusteringGenerator.build_additional_mapper_params
          [cluster_matching_all; cluster_one_off; cluster_three_off])
       blank_student)))))))).
  by vm_compute.
Defined.

(** C6. With pairwise distinct cluster ids, no key is yielded twice; for two
    retained clusters A before B the key (A, B) is yielded exactly once and
    the key (B, A) never; and every pair key yielded is the key of such a
    pair. *)
Theorem pair_yielded_once (params : mapper_params) (item : student_vector) :
  NoDup (cluster_id <$> clusters params) →
  let keys := keys_of (ClusteringGenerator.map params item).1 in
  NoDup keys
  ∧ (∀ ca cb,
       retained_pair item (max_distance params) (clusters params) ca cb →
       length (filter (λ k, k = PairKey (cluster_id ca) (cluster_id cb)) keys) = 1
       ∧ PairKey (cluster_id cb) (cluster_id ca) ∉ keys)
  ∧ (∀ a b, PairKey a b ∈ keys →
       ∃ ca cb, retained_pair item (max_distance params) (clusters params) ca cb
                ∧ a = cluster_id ca ∧ b = cluster_id cb).
Proof.
  intros Hnd keys. subst keys.
  pose proof (map_pair_values params item Hnd) as Hpairs.
  assert (Hkeys : NoDup (keys_of (ClusteringGenerator.map params item).1)).
  { rewrite map_unfold. simpl.
    by destruct (loop_pairs item (max_distance params) (clusters params) Hnd)
      as (_ & _ & ?). }
  split; [done|]. split.
  - intros ca cb Hp. split.
    + apply NoDup_filter_eq_length; [done|].
      apply elem_of_keys_of. eexists. apply Hpairs. by exists ca, cb.
    + intros [v Hv]%elem_of_keys_of.
      apply Hpairs in Hv as (ca' & cb' & Hp' & Ha & Hb & _).
      destruct Hp as (i & j & Hi & Hj & Hij & _).
      destruct Hp' as (i' & j' & Hi' & Hj' & Hij' & _).
      assert (Hidx : ∀ n m c c', clusters params !! n = Some c →
                clusters params !! m = Some c' → cluster_id c = cluster_id c' → n = m).
      { intros n m c c' Hn Hm Heq. apply (NoDup_lookup _ n m (cluster_id c) Hnd).
        - by rewrite list_lookup_fmap, Hn.
        - by rewrite list_lookup_fmap, Hm, Heq. }
      pose proof (Hidx _ _ _ _ Hj Hi' Ha). pose proof (Hidx _ _ _ _ Hi Hj' Hb). lia.
  - intros a b [v Hv]%elem_of_keys_of.
    apply Hpairs in Hv as (ca & cb & Hp & -> & -> & _). by exists ca, cb.
Qed.

Lemma pair_yielded_once_witness :
  NoDup (keys_of (ClusteringGenerator.map
                    (ClusteringGenerator.build_additional_mapper_params
                       [cluster_matching_all; cluster_one_off; cluster_three_off])
                    blank_student).1).
Proof.
  apply (pair_yielded_once
           (ClusteringGenerator.build_additional_mapper_params
              [cluster_matching_all; cluster_one_off; cluster_three_off])
           blank_student).
  simpl. apply (bool_decide_unpack _). by vm_compute.
Defined.

(** ** Aggregator *)

Section Aggregator.
Import ClusteringGenerator.

Lemma increment_lookup (distances : gmap nat nat) (k j : nat) :
  default 0 (increment distances k !! j)
  = default 0 (distances !! j) + (if decide (j = k) then 1 else 0).
Proof.
  unfold increment. destruct (decide (j = k)) as [->|Hne].
  - by rewrite lookup_insert_eq.
  - rewrite lookup_insert_ne by done. lia.
Qed.

Lemma count_eq_cons (k d : nat) (ds : list nat) :
  count_eq k (d :: ds) = (if decide (k = d) then 1 else 0) + count_eq k ds.
Proof.
  unfold count_eq. rewrite filter_cons.
  destruct (decide (d = k)) as [->|Hne].
  - by rewrite decide_True.
  - by rewrite decide_False.
Qed.

(** After the counting loop, the dictionary holds under each distance the
    number of times it was filed. *)
Lemma increments_lookup (ds : list nat) (distances : gmap nat nat) (j : nat) :
  default 0 (fold_left increment ds distances !! j)
  = default 0 (distances !! j) + count_eq j ds.
Proof.
  revert distances. induction ds as [|d ds IH]; intros distances; simpl.
  - unfold count_eq. simpl. lia.
  - rewrite IH, increment_lookup, count_eq_cons. lia.
Qed.

Lemma increments_is_Some (ds : list nat) (distances : gmap nat nat) (j : nat) :
  is_Some (fold_left increment ds distances !! j)
  ↔ is_Some (distances !! j) ∨ j ∈ ds.
Proof.
  revert distances. induction ds as [|d ds IH]; intros distances; simpl.
  - split; [by left|]. intros [?|Hin]; [done|]. by apply elem_of_nil in Hin.
  - rewrite IH, elem_of_cons. unfold increment.
    destruct (decide (j = d)) as [->|Hne].
    + rewrite lookup_insert_eq. split; [intros _; right; by left|by left].
    + rewrite lookup_insert_ne by done.
      split; [intros [?|?]; auto|intros [?|[?|?]]; auto; done].
Qed.

(** The first loop of [reduce] files every value at [filed_at]. *)
Lemma intersection_loop (values : list value) (a b : Z) (distances : gmap nat nat) :
  fold_left intersection_step values (Some distances)
  = ds ← mapM (filed_at (PairKey a b)) values; Some (fold_left increment ds distances).
Proof.
  revert distances. induction values as [|v values IH]; intros distances; [done|].
  simpl. destruct (value_2 v) as [v2|]; simpl.
  - rewrite IH. by destruct (mapM _ values).
  - clear IH. induction values as [|v' values IH]; [done|]. simpl. apply IH.
Qed.

Lemma count_loop (values : list value) (distances : gmap nat nat) :
  fold_left count_step values distances
  = fold_left increment (value_1 <$> values) distances.
Proof.
  revert distances. induction values as [|v values IH]; intros distances; [done|].
  simpl. apply IH.
Qed.

Lemma buckets_group (item_id : key) (values : list value) :
  buckets item_id values
  = ds ← group_distances item_id values; Some (fold_left increment ds ∅).
Proof.
  unfold buckets, group_distances. destruct item_id as [a|a b].
  - rewrite count_loop. simpl.
    assert (Hm : mapM (λ v, Some (value_1 v)) values = Some (value_1 <$> values)).
    { induction values as [|v values IH]; [done|]. simpl. by rewrite IH. }
    unfold filed_at. by rewrite Hm.
  - apply intersection_loop.
Qed.

Lemma max_list_same_elements (l1 l2 : list nat) :
  (∀ x, x ∈ l1 ↔ x ∈ l2) → max_list l1 = max_list l2.
Proof.
  intros Heq. destruct l1 as [|x1 l1], l2 as [|x2 l2]; [done| | |].
  - exfalso. apply (elem_of_nil x2), Heq. by left.
  - exfalso. apply (elem_of_nil x1), Heq. by left.
  - apply Nat.le_antisymm; apply max_list_elem_of_le.
    + apply Heq. by apply max_list_elem_of.
    + apply Heq. by apply max_list_elem_of.
Qed.

(** The loop that copies the dictionary into the list: with distinct keys
    that are all in range it never fails, writes every entry at its key and
    leaves the other cells alone. *)
Lemma fill_loop (entries : list (nat * nat)) (l0 : list nat) :
  NoDup entries.*1 →
  (∀ k v, (k, v) ∈ entries → k < length l0) →
  ∃ l, fold_left fill_step entries (Some l0) = Some l
       ∧ length l = length l0
       ∧ (∀ k v, (k, v) ∈ entries → l !! k = Some v)
       ∧ (∀ k, k ∉ entries.*1 → l !! k = l0 !! k).
Proof.
  revert l0. induction entries as [|[k0 v0] entries IH]; intros l0 Hnd Hrange.
  { exists l0. split; [done|]. split; [done|]. split; [|done].
    intros k v Hin. by apply elem_of_nil in Hin. }
  simpl in Hnd. apply NoDup_cons in Hnd as [Hk0 Hnd].
  assert (Hlt : k0 < length l0) by (apply (Hrange k0 v0); by left).
  simpl. rewrite decide_True by done.
  destruct (IH (<[k0:=v0]> l0) Hnd) as (l & Hl & Hlen & Hin & Hout).
  { intros k v Hkv. rewrite length_insert. apply (Hrange k v). by right. }
  exists l. rewrite length_insert in Hlen.
  split; [done|]. split; [done|]. split.
  - intros k v [[= -> ->]|Hkv]%elem_of_cons; [|by apply Hin].
    rewrite Hout by done. by apply list_lookup_insert_eq.
  - intros k Hk. simpl in Hk. apply not_elem_of_cons in Hk as [Hne Hk].
    rewrite Hout by done. by apply list_lookup_insert_ne.
Qed.

(** The running-sum loop over the indices 1 to [n]: the cells up to [n] hold
    the sums of the original prefixes, the later cells are untouched. *)
Lemma accumulate_loop (l : list nat) (n : nat) :
  n < length l →
  length (fold_left accumulate_step (seq 1 n) l) = length l
  ∧ (∀ i, i ≤ n →
       fold_left accumulate_step (seq 1 n) l !! i = Some (sum_list (take (S i) l)))
  ∧ (∀ i, n < i → fold_left accumulate_step (seq 1 n) l !! i = l !! i).
Proof.
  induction n as [|n IH]; intros Hn.
  { simpl. split; [done|]. split; [|done]. intros i Hi. assert (i = 0) as -> by lia.
    destruct l as [|x l]; [simpl in Hn; lia|]. simpl. f_equal. lia. }
  rewrite seq_S, fold_left_app. cbn [fold_left]. change (1 + n) with (S n).
  destruct IH as (Hlen & Hsum & Hrest); [lia|].
  set (r := fold_left accumulate_step (seq 1 n) l) in *.
  unfold accumulate_step. replace (S n - 1) with n by lia.
  rewrite length_insert.
  destruct (lookup_lt_is_Some_2 l (S n) Hn) as [x Hx].
  assert (Hr1 : r !!! S n = x).
  { apply list_lookup_total_correct. rewrite Hrest by lia. done. }
  assert (Hr0 : r !!! n = sum_list (take (S n) l)).
  { apply list_lookup_total_correct. apply Hsum. lia. }
  rewrite Hr1, Hr0. split; [done|]. split.
  - intros i Hi. destruct (decide (i = S n)) as [->|Hne].
    + rewrite list_lookup_insert_eq by lia. f_equal.
      rewrite (take_S_r l (S n) x Hx), sum_list_with_app. simpl. lia.
    + rewrite list_lookup_insert_ne by done. apply Hsum. lia.
  - intros i Hi. rewrite list_lookup_insert_ne by lia. apply Hrest. lia.
Qed.

Lemma count_le_0 (ds : list nat) : count_le 0 ds = count_eq 0 ds.
Proof.
  unfold count_le, count_eq. f_equal. apply list_filter_iff. intros d. lia.
Qed.

Lemma count_le_S (d : nat) (ds : list nat) :
  count_le (S d) ds = count_le d ds + count_eq (S d) ds.
Proof.
  unfold count_le, count_eq. induction ds as [|x ds IH]; [done|].
  rewrite !filter_cons.
  destruct (decide (x ≤ S d)), (decide (x ≤ d)), (decide (x = S d));
    simpl; lia.
Qed.

(** Prefix sums of the per-distance counts are the cumulative counts. *)
Lemma prefix_sum_counts (l : list nat) (ds : list nat) (d : nat) :
  (∀ k, k < length l → l !! k = Some (count_eq k ds)) →
  d < length l →
  sum_list (take (S d) l) = count_le d ds.
Proof.
  intros Hl. induction d as [|d IH]; intros Hd.
  - rewrite (take_S_r l 0 _ (Hl 0 Hd)). simpl. rewrite count_le_0. lia.
  - rewrite (take_S_r l (S d) _ (Hl (S d) Hd)), sum_list_with_app, IH by lia.
    simpl. rewrite count_le_S. lia.
Qed.

(** The reducer on a non-empty group whose values have the shape the key
    asks for: the length of the list and each of its cells. *)
Lemma reduce_cumulative (item_id : key) (values : list value) (ds : list nat) :
  group_distances item_id values = Some ds → ds ≠ [] →
  ∃ l, reduce item_id values
       = Some {| stat_name := statistic_name item_id;
                 stat_item_id := item_id;
                 stat_distances := l |}
       ∧ length l = max_list ds + 1
       ∧ ∀ d, d < length l → l !! d = Some (count_le d ds).
Proof.
  intros Hds Hne. unfold reduce. rewrite buckets_group, Hds. simpl.
  set (distances := fold_left increment ds ∅).
  assert (Hkeys : ∀ k, k ∈ (map_to_list distances).*1 ↔ k ∈ ds).
  { intros k. rewrite list_elem_of_fmap. split.
    - intros ([k' v] & -> & Hin). apply elem_of_map_to_list in Hin. simpl.
      assert (Hs : is_Some (distances !! k')) by by eexists.
      apply increments_is_Some in Hs as [[? Hs]|?]; [|done].
      by rewrite lookup_empty in Hs.
    - intros Hin.
      assert (Hs : is_Some (distances !! k)).
      { apply increments_is_Some. by right. }
      destruct Hs as [v Hv]. exists (k, v). split; [done|].
      by apply elem_of_map_to_list. }
  assert (Hval : ∀ k, default 0 (distances !! k) = count_eq k ds).
  { intros k. unfold distances. rewrite increments_lookup, lookup_empty. done. }
  assert (Hmax : max_list (map_to_list distances).*1 = max_list ds)
    by by apply max_list_same_elements.
  assert (Hsome : py_max (map_to_list distances).*1 = Some (max_list ds)).
  { rewrite <- Hmax. destruct ((map_to_list distances).*1) as [|k0 ks] eqn:Hks; [|done].
    destruct ds as [|d ds]; [done|]. exfalso.
    apply (elem_of_nil d), Hkeys. by left. }
  rewrite Hsome. simpl.
  destruct (fill_loop (map_to_list distances) (replicate (max_list ds + 1) 0))
    as (l1 & Hfill & Hlen1 & Hin & Hout).
  { apply NoDup_fst_map_to_list. }
  { intros k v Hkv. rewrite length_replicate.
    assert (Hk : k ∈ ds).
    { apply Hkeys. apply list_elem_of_fmap. by exists (k, v). }
    pose proof (max_list_elem_of_le k ds Hk). lia. }
  rewrite Hfill. simpl. rewrite length_replicate in Hlen1.
  assert (Hcells : ∀ k, k < length l1 → l1 !! k = Some (count_eq k ds)).
  { intros k Hk. rewrite <- Hval. destruct (distances !! k) as [v|] eqn:Hv.
    - apply Hin. by apply elem_of_map_to_list.
    - rewrite Hout.
      + simpl. apply lookup_replicate_2. lia.
      + rewrite list_elem_of_fmap. intros ([k' v'] & -> & Hkv).
        apply elem_of_map_to_list in Hkv. simpl in Hv. congruence. }
  destruct (accumulate_loop l1 (length l1 - 1)) as (Hlen & Hsum & _); [lia|].
  eexists. split; [reflexivity|]. split; [lia|].
  intros d Hd. rewrite Hlen in Hd. rewrite Hsum by lia.
  f_equal. by apply prefix_sum_counts.
Qed.

Lemma mapM_nonempty {A B} (f : A → option B) (l : list A) (k : list B) :
  mapM f l = Some k → l ≠ [] → k ≠ [].
Proof.
  intros Hm Hl ->. apply length_mapM in Hm. destruct l; [done|]. simpl in Hm. lia.
Qed.

Lemma length_filter_fmap {A B} (f : A → B) (P : B → Prop) `{!∀ y, Decision (P y)}
    (l : list A) :
  length (filter P (f <$> l)) = length (filter (λ x, P (f x)) l).
Proof.
  induction l as [|x l IH]; [done|].
  rewrite fmap_cons, !filter_cons. destruct (decide (P (f x))); simpl; by rewrite IH.
Qed.

Lemma group_distances_pairs (a b : Z) (obs : list (string * nat * nat)) :
  group_distances (PairKey a b) (pair_value <$> obs) = Some (worse_distance <$> obs).
Proof.
  unfold group_distances. apply mapM_Some_2, Forall2_fmap, Forall_Forall2_diag.
  apply Forall_forall. by intros [[s d1] d2] _.
Qed.

(** C4. For a non-empty group whose values have the shape of its key, the
    reducer returns a list of length (largest distance of the group) + 1 whose
    cell [d] is the number of observations at distance at most [d]; the list
    never decreases from one cell to the next. *)
Theorem cumulative_distribution (item_id : key) (values : list value) (ds : list nat) :
  group_distances item_id values = Some ds → values ≠ [] →
  ∃ l, reduce item_id values
       = Some {| stat_name := statistic_name item_id;
                 stat_item_id := item_id;
                 stat_distances := l |}
       ∧ length l = max_list ds + 1
       ∧ (∀ d, d < length l → l !! d = Some (count_le d ds))
       ∧ (∀ d, S d < length l → l !!! d ≤ l !!! S d).
Proof.
  intros Hds Hne.
  destruct (reduce_cumulative item_id values ds Hds) as (l & Hred & Hlen & Hcells).
  { by apply (mapM_nonempty _ _ _ Hds). }
  exists l. split; [done|]. split; [done|]. split; [done|].
  intros d Hd.
  rewrite (list_lookup_total_correct l d _ (Hcells d ltac:(lia))).
  rewrite (list_lookup_total_correct l (S d) _ (Hcells (S d) Hd)).
  rewrite count_le_S. lia.
Qed.

Lemma cumulative_distribution_witness :
  ∃ l, reduce (ClusterKey 7) four_observations
       = Some {| stat_name := "count"; stat_item_id := ClusterKey 7;
                 stat_distances := l |}
       ∧ length l = 3
       ∧ (∀ d, d < length l → l !! d = Some (count_le d [0; 0; 1; 2]))
       ∧ (∀ d, S d < length l → l !!! d ≤ l !!! S d).
Proof.
  apply (cumulative_distribution (ClusterKey 7) four_observations [0; 0; 1; 2]).
  - reflexivity.
  - discriminate.
Defined.

(** The aggregation example of the specification. *)
Example cumulative_distribution_example :
  reduce (ClusterKey 7) four_observations
  = Some {| stat_name := "count"; stat_item_id := ClusterKey 7;
            stat_distances := [2; 3; 4] |}.
Proof. by vm_compute. Qed.

(** C3. Under a pair key the reducer files each observation at the larger of
    its two distances: the dictionary holds under [k] the number of
    observations whose larger distance is [k], and cell [d] of the result
    counts the observations whose larger distance is at most [d]. *)
Theorem intersection_files_at_max (a b : Z) (obs : list (string * nat * nat)) :
  ∃ distances,
    buckets (PairKey a b) (pair_value <$> obs) = Some distances
    ∧ (∀ k, default 0 (distances !! k)
            = length (filter (λ o, worse_distance o = k) obs))
    ∧ (obs ≠ [] →
       ∃ l, reduce (PairKey a b) (pair_value <$> obs)
            = Some {| stat_name := "intersection"; stat_item_id := PairKey a b;
                      stat_distances := l |}
            ∧ ∀ d, d < length l →
                   l !! d = Some (length (filter (λ o, worse_distance o ≤ d) obs))).
Proof.
  pose proof (group_distances_pairs a b obs) as Hds.
  eexists. split; [by rewrite buckets_group, Hds|]. split.
  - intros k. rewrite increments_lookup, lookup_empty. unfold count_eq.
    by rewrite length_filter_fmap.
  - intros Hne.
    destruct (reduce_cumulative _ _ _ Hds) as (l & Hred & _ & Hcells).
    { by destruct obs. }
    exists l. split; [done|]. intros d Hd. rewrite (Hcells d Hd).
    unfold count_le. by rewrite length_filter_fmap.
Qed.

Lemma intersection_files_at_max_witness :
  ∃ l, reduce (PairKey 1 2) (pair_value <$> three_pair_observations)
       = Some {| stat_name := "intersection"; stat_item_id := PairKey 1 2;
                 stat_distances := l |}
       ∧ ∀ d, d < length l →
              l !! d = Some (length (filter (λ o, worse_distance o ≤ d)
                                       three_pair_observations)).
Proof.
  destruct (intersection_files_at_max 1 2 three_pair_observations)
    as (distances & _ & _ & Hred).
  apply Hred. discriminate.
Defined.

(** Exchanging the two distances of a value does not change where it is
    filed. *)
Lemma intersection_step_swap (distances : option (gmap nat nat)) (v : value) :
  intersection_step distances (swap_distances v) = intersection_step distances v.
Proof.
  destruct distances as [distances|]; [|done].
  destruct v as [s d|s d1 d2]; [done|]. simpl. by rewrite Nat.max_comm.
Qed.

(** C10. Exchanging the two distances in any of the observations of a
    cluster-pair group leaves the outcome of the reducer unchanged. *)
Theorem intersection_swap_insensitive (a b : Z) (values values' : list value) :
  Forall2 (λ v v', v' = v ∨ v' = swap_distances v) values values' →
  reduce (PairKey a b) values' = reduce (PairKey a b) values.
Proof.
  intros Hsw.
  assert (Hb : ∀ distances,
             fold_left intersection_step values' distances
             = fold_left intersection_step values distances).
  { induction Hsw as [|v v' values values' Hv _ IH]; intros distances; [done|].
    simpl. rewrite IH. destruct Hv as [->| ->]; [done|].
    by rewrite intersection_step_swap. }
  unfold reduce, buckets. by rewrite Hb.
Qed.

Lemma intersection_swap_insensitive_witness :
  reduce (PairKey 1 2) [Tuple3 "s1" 0 1; Tuple3 "s2" 0 2; Tuple3 "s3" 1 1]
  = reduce (PairKey 1 2) (pair_value <$> three_pair_observations).
Proof.
  apply intersection_swap_insensitive.
  repeat constructor; by (left + right).
Defined.

End Aggregator.

(** * Further properties of the code *)

(** ** Distances and the saved vector *)

Section DistanceMore.
Variable student_vector : list student_dimension.

(** The distance is the number of dimensions of the cluster vector that
    reject the value the student has for them. *)
Theorem hamming_distance_counts_rejecting (vector : list dimension) :
  hamming_distance vector student_vector
  = length (filter (λ dim, rejects dim (used_value student_vector dim) = true) vector).
Proof.
  induction vector as [|dim vector IH]; [done|].
  rewrite hamming_distance_cons, filter_cons, IH.
  destruct (rejects dim (used_value student_vector dim)).
  - by rewrite decide_True.
  - by rewrite decide_False.
Qed.

(** Saving a cluster drops the dimensions without any bound; what is left has
    a bound in every dimension, saving twice changes nothing more, and the
    distance of every student to the saved vector is the distance to the
    vector as edited. *)
Theorem pre_save_hook_keeps_distance (vector : list dimension) :
  hamming_distance (ClusterRESTHandler.pre_save_hook vector) student_vector
  = hamming_distance vector student_vector
  ∧ Forall (λ dim, _has_left_side dim = true ∨ _has_right_side dim = true)
      (ClusterRESTHandler.pre_save_hook vector)
  ∧ ClusterRESTHandler.pre_save_hook (ClusterRESTHandler.pre_save_hook vector)
    = ClusterRESTHandler.pre_save_hook vector.
Proof.
  unfold ClusterRESTHandler.pre_save_hook. split; [|split].
  - induction vector as [|dim vector IH]; [done|].
    rewrite filter_cons, (hamming_distance_cons _ dim vector).
    destruct (decide (_has_left_side dim || _has_right_side dim)) as [Hb|Hb].
    + by rewrite hamming_distance_cons, IH.
    + apply Is_true_false_1, orb_false_elim in Hb as [Hl Hr].
      by rewrite unbounded_never_rejects, IH.
  - apply Forall_forall. intros dim [Hb _]%list_elem_of_filter.
    apply Is_true_true_1, orb_true_iff in Hb. done.
  - apply list_filter_filter_l. done.
Qed.

(** The look-up returns the value of the first entry with the given id and
    type; later entries for the same dimension are never read. *)
Theorem get_dimension_value_first_match
    (before after : list student_dimension) (e : student_dimension)
    (dim_id dim_type : string) :
  student_vector = before ++ e :: after →
  (∀ e', e' ∈ before → ¬ (sv_id e' = dim_id ∧ sv_type e' = dim_type)) →
  sv_id e = dim_id → sv_type e = dim_type →
  StudentVector.get_dimension_value student_vector dim_id dim_type = Some (sv_value e).
Proof.
  intros -> Hbefore Hid Hty. unfold StudentVector.get_dimension_value.
  rewrite filter_app, (filter_none _ before Hbefore), filter_cons_True by done.
  done.
Qed.

End DistanceMore.

Lemma get_dimension_value_first_match_witness :
  StudentVector.get_dimension_value
    [ {| sv_type := "l"; sv_id := "3"; sv_value := 0.5 |};
      {| sv_type := "u"; sv_id := "3"; sv_value := 0.7 |};
      {| sv_type := "u"; sv_id := "3"; sv_value := 0.9 |} ] "3" "u"
  = Some 0.7%Q.
Proof.
  apply (get_dimension_value_first_match _
           [ {| sv_type := "l"; sv_id := "3"; sv_value := 0.5 |} ]
           [ {| sv_type := "u"; sv_id := "3"; sv_value := 0.9 |} ]
           {| sv_type := "u"; sv_id := "3"; sv_value := 0.7 |}); try done.
  intros e' ->%list_elem_of_singleton [_ Hty]. discriminate Hty.
Defined.

(** ** Question scores as computed *)

Section QuestionScoreMore.
Import StudentVectorGenerator.

(** The question score in full: the answers that count are those whose
    weighted score is present and not zero; among them the ones at the
    largest timestamp are averaged, provided that timestamp is not negative.
    When every answer that counts has a negative timestamp, or none counts,
    the score is 0. *)
Theorem question_score_as_computed (data : list answer) :
  (∀ m, (0 ≤ m)%Z →
        (∃ a, a ∈ data ∧ truthy_score a = true ∧ timestamp a = m) →
        (∀ a, a ∈ data → truthy_score a = true → (timestamp a ≤ m)%Z) →
        _get_question_score data
        = mean (omap weighted_score
                  (filter (λ a, truthy_score a = true ∧ timestamp a = m) data)))
  ∧ ((∀ a, a ∈ data → truthy_score a = true → (timestamp a < 0)%Z) →
     _get_question_score data = 0%Q).
Proof.
  pose proof (question_loop_invariant data) as Hinv.
  unfold _get_question_score.
  destruct (fold_left question_step data ([], 0%Z)) as [ls lt].
  simpl in Hinv. destruct Hinv as (Hpos & Hmax & Hwit & Hls). split.
  - intros m Hm (a0 & Ha0 & Ht0 & Hm0) Hub.
    assert (Heq : lt = m).
    { pose proof (Hmax a0 Ha0 Ht0) as Hle.
      destruct Hwit as [->|(b & Hb & Htb & Hlt)]; [lia|].
      specialize (Hub b Hb Htb). lia. }
    subst lt. rewrite <- Hls. destruct ls as [|s ls]; [|done]. exfalso.
    destruct (truthy_score_Some a0 Ht0) as (q & Hq & _).
    assert (Hin : q ∈ omap weighted_score
                    (filter (λ a, truthy_score a = true ∧ timestamp a = m) data)).
    { apply list_elem_of_omap. exists a0. split; [|done].
      by apply list_elem_of_filter. }
    rewrite <- Hls in Hin. by apply elem_of_nil in Hin.
  - intros Hneg. destruct ls as [|s ls]; [done|]. exfalso.
    assert (Hin : s ∈ s :: ls) by left. rewrite Hls in Hin.
    apply list_elem_of_omap in Hin as (b & Hb & _).
    apply list_elem_of_filter in Hb as [[Htb Hlt] Hb].
    specialize (Hneg b Hb Htb). lia.
Qed.

End QuestionScoreMore.

Lemma question_score_as_computed_witness :
  StudentVectorGenerator._get_question_score answers_zero_last
  = mean (omap weighted_score
            (filter (λ a, truthy_score a = true ∧ timestamp a = 5%Z) answers_zero_last)).
Proof.
  apply (proj1 (question_score_as_computed answers_zero_last) 5%Z).
  - lia.
  - exists {| weighted_score := Some 0.6%Q; timestamp := 5 |}. split; [left|done].
  - apply (proj1 (Forall_forall
               (λ a, truthy_score a = true → (timestamp a ≤ 5)%Z) answers_zero_last)).
    repeat constructor; vm_compute; congruence.
Defined.

(** ** The classifier on one student *)

Section ClassifierMore.
Variable params : mapper_params.
Hypothesis distinct_ids : NoDup (cluster_id <$> clusters params).

Local Abbreviation maxd := (max_distance params).
Local Abbreviation cs := (clusters params).

Lemma same_id_same_cluster (c c' : cluster) :
  c ∈ cs → c' ∈ cs → cluster_id c = cluster_id c' → c = c'.
Proof.
  intros [i Hi]%list_elem_of_lookup_1 [j Hj]%list_elem_of_lookup_1 Heq.
  assert (i = j) as ->.
  { apply (NoDup_lookup _ i j (cluster_id c) distinct_ids).
    - by rewrite list_lookup_fmap, Hi.
    - by rewrite list_lookup_fmap, Hj, Heq. }
  congruence.
Qed.

Lemma filter_key_singleton (l : list (key * value)) (k : key) (v : value) :
  NoDup l.*1 → (k, v) ∈ l → filter (λ kv, kv.1 = k) l = [(k, v)].
Proof.
  induction l as [|[k' v'] l IH]; intros Hnd Hin; [by apply elem_of_nil in Hin|].
  simpl in Hnd. apply NoDup_cons in Hnd as [Hk' Hnd]. rewrite filter_cons. simpl.
  apply elem_of_cons in Hin as [[= <- <-]|Hin].
  - rewrite decide_True by done. f_equal. apply filter_none.
    intros [k2 v2] Hin2 Heq. simpl in Heq. subst k2. apply Hk'.
    apply list_elem_of_fmap. by exists (k, v2).
  - rewrite decide_False; [by apply IH|].
    intros ->. apply Hk'. apply list_elem_of_fmap. by exists (k, v).
Qed.

Lemma filter_key_absent (l : list (key * value)) (k : key) :
  (∀ v, (k, v) ∉ l) → filter (λ kv, kv.1 = k) l = [].
Proof.
  intros Hno. apply filter_none. intros [k' v] Hin Heq. simpl in Heq. subst k'.
  by apply (Hno v).
Qed.

Lemma map_keys_NoDup (item : student_vector) :
  NoDup (ClusteringGenerator.map params item).1.*1.
Proof.
  rewrite map_unfold. simpl.
  by destruct (loop_pairs item maxd cs distinct_ids) as (_ & _ & ?).
Qed.

Lemma map_single_values (item : student_vector) (b : Z) (v : value) :
  (ClusterKey b, v) ∈ (ClusteringGenerator.map params item).1 ↔
  ∃ c, c ∈ cs ∧ cluster_id c = b ∧ retained item maxd c
       ∧ v = Tuple2 (key_name item) (distance_to item c).
Proof.
  rewrite map_unfold. simpl.
  by destruct (loop_retained_only item maxd cs) as (_ & _ & ? & _).
Qed.

(** The entity stored for a student maps the id of every retained cluster to
    the distance of the student to that cluster, has no other key, and
    carries the key name of the student vector. *)
Theorem stored_distances (item : student_vector) :
  sc_key_name (ClusteringGenerator.map params item).2 = key_name item
  ∧ ∀ a d, sc_clusters (ClusteringGenerator.map params item).2 !! a = Some d ↔
           ∃ c, c ∈ cs ∧ cluster_id c = a ∧ distance_to item c ≤ maxd
                ∧ d = distance_to item c.
Proof.
  rewrite map_unfold. simpl. split; [done|]. intros a d.
  destruct (loop_retained_only item maxd cs) as (Hdict & _).
  destruct (loop_pairs item maxd cs distinct_ids) as (Hdist & _). split.
  - intros Hl. destruct (Hdict a d Hl) as (c & ? & ? & ? & ?). by exists c.
  - intros (c & Hc & <- & Hr & ->). by apply Hdist.
Qed.

(** With [r] retained clusters the classifier yields [r] single observations
    and one pair observation for each of the [r (r - 1) / 2] pairs, and it
    stores [r] distances. *)
Theorem yield_count (item : student_vector) :
  let r := length (retained_clusters item maxd cs) in
  2 * length (ClusteringGenerator.map params item).1 = r * (r + 1)
  ∧ size (sc_clusters (ClusteringGenerator.map params item).2) = r.
Proof.
  rewrite map_unfold. simpl. unfold retained_clusters.
  revert distinct_ids. generalize cs. clear.
  intros cs. induction cs as [|c cs IH] using rev_ind; intros Hnd; [done|].
  rewrite fmap_app in Hnd. apply NoDup_app in Hnd as (Hnd & Hfresh & _).
  specialize (IH Hnd). destruct IH as [Hlen Hsize].
  destruct (loop_retained_only item (max_distance params) cs) as (Hdict & _).
  rewrite fold_left_app, filter_app, length_app. simpl.
  destruct (fold_left _ cs (∅, [])) as [dict out]. simpl in Hlen, Hsize, Hdict.
  rewrite filter_cons, filter_nil.
  destruct (decide (distance_to item c ≤ max_distance params)) as [Hkeep|Hskip].
  - rewrite step_keep by done. simpl. rewrite !length_app. simpl.
    unfold ClusteringGenerator.yield_pairs.
    rewrite length_fmap, length_map_to_list, Hsize.
    rewrite map_size_insert_None, Hsize.
    + split; [|lia]. nia.
    + destruct (dict !! cluster_id c) as [d|] eqn:Hl; [|done]. exfalso.
      destruct (Hdict _ _ Hl) as (ca & Hca & Hid & _).
      apply (Hfresh (cluster_id c)).
      * rewrite <- Hid. by apply list_elem_of_fmap_2.
      * simpl. by left.
  - rewrite step_skip by lia. simpl. split; lia.
Qed.

(** What the reducer of a cluster receives from one student. *)
Lemma shuffle_single (item : student_vector) (c : cluster) :
  c ∈ cs →
  shuffle (ClusterKey (cluster_id c)) (ClusteringGenerator.map params item).1
  = if decide (distance_to item c ≤ maxd)
    then [Tuple2 (key_name item) (distance_to item c)] else [].
Proof.
  intros Hc. unfold shuffle. destruct (decide _) as [Hr|Hr].
  - rewrite (filter_key_singleton _ _ (Tuple2 (key_name item) (distance_to item c)));
      [done|apply map_keys_NoDup|].
    apply map_single_values. by exists c.
  - rewrite filter_key_absent; [done|]. intros v Hin.
    apply map_single_values in Hin as (c' & Hc' & Hid & Hr' & _).
    apply same_id_same_cluster in Hid; [|done..]. subst c'. done.
Qed.

(** What the reducer of a pair of clusters receives from one student. *)
Lemma shuffle_pair (item : student_vector) (ca cb : cluster) (i j : nat) :
  cs !! i = Some ca → cs !! j = Some cb → i < j →
  shuffle (PairKey (cluster_id ca) (cluster_id cb)) (ClusteringGenerator.map params item).1
  = (if decide (distance_to item ca ≤ maxd ∧ distance_to item cb ≤ maxd)
     then [Tuple3 (key_name item) (distance_to item cb) (distance_to item ca)] else [])
  ∧ shuffle (PairKey (cluster_id cb) (cluster_id ca)) (ClusteringGenerator.map params item).1
    = [].
Proof.
  intros Hi Hj Hij. unfold shuffle.
  pose proof (map_pair_values params item distinct_ids) as Hpairs.
  assert (Hca : ca ∈ cs) by by apply list_elem_of_lookup_2 in Hi.
  assert (Hcb : cb ∈ cs) by by apply list_elem_of_lookup_2 in Hj.
  assert (Hidx : ∀ n m c c', cs !! n = Some c → cs !! m = Some c' →
                 cluster_id c = cluster_id c' → n = m).
  { intros n m c c' Hn Hm Heq. apply (NoDup_lookup _ n m (cluster_id c) distinct_ids).
    - by rewrite list_lookup_fmap, Hn.
    - by rewrite list_lookup_fmap, Hm, Heq. }
  split.
  - destruct (decide _) as [[Hra Hrb]|Hr].
    + rewrite (filter_key_singleton _ _
                 (Tuple3 (key_name item) (distance_to item cb) (distance_to item ca)));
        [done|apply map_keys_NoDup|].
      apply Hpairs. exists ca, cb. split; [|done]. by exists i, j.
    + rewrite filter_key_absent; [done|]. intros v Hin.
      apply Hpairs in Hin as (ca' & cb' & (i' & j' & Hi' & Hj' & _ & Hra & Hrb) & Ha & Hb & _).
      apply same_id_same_cluster in Ha; [|done|by apply list_elem_of_lookup_2 in Hi'].
      apply same_id_same_cluster in Hb; [|done|by apply list_elem_of_lookup_2 in Hj'].
      subst ca' cb'. by apply Hr.
  - rewrite filter_key_absent; [done|]. intros v Hin.
    apply Hpairs in Hin as (ca' & cb' & (i' & j' & Hi' & Hj' & Hij' & _) & Ha & Hb & _).
    pose proof (Hidx _ _ _ _ Hj Hi' Ha). pose proof (Hidx _ _ _ _ Hi Hj' Hb). lia.
Qed.

End ClassifierMore.

Lemma yield_count_witness :
  2 * length (ClusteringGenerator.map
                (ClusteringGenerator.build_additional_mapper_params
                   [cluster_matching_all; cluster_one_off; cluster_three_off])
                blank_student).1
  = 2 * (2 + 1).
Proof.
  apply (yield_count
           (ClusteringGenerator.build_additional_mapper_params
              [cluster_matching_all; cluster_one_off; cluster_three_off])).
  simpl. apply (bool_decide_unpack _). by vm_compute.
Defined.

Lemma stored_distances_witness :
  sc_clusters (ClusteringGenerator.map
                 (ClusteringGenerator.build_additional_mapper_params
                    [cluster_matching_all; cluster_one_off; cluster_three_off])
                 blank_student).2 !! 2%Z = Some 1.
Proof.
  apply (stored_distances
           (ClusteringGenerator.build_additional_mapper_params
              [cluster_matching_all; cluster_one_off; cluster_three_off])).
  - simpl. apply (bool_decide_unpack _). by vm_compute.
  - exists cluster_one_off. split; [right; left|]. split; [done|].
    split; [vm_compute; lia|done].
Defined.

(** ** The reducer *)

Section AggregatorMore.
Import ClusteringGenerator.

Lemma group_distances_single (a : Z) (values : list value) :
  group_distances (ClusterKey a) values = Some (value_1 <$> values).
Proof.
  unfold group_distances. apply mapM_Some_2, Forall2_fmap_r, Forall_Forall2_diag.
  by apply Forall_forall.
Qed.

(** The reducer fails on an empty group, and under a pair key it fails as
    soon as one value has only one distance; under a single key it accepts
    any non-empty group. *)
Theorem reduce_failures (a b : Z) (values : list value) :
  reduce (ClusterKey a) [] = None
  ∧ reduce (PairKey a b) [] = None
  ∧ ((∃ s d, Tuple2 s d ∈ values) → reduce (PairKey a b) values = None)
  ∧ (values ≠ [] → is_Some (reduce (ClusterKey a) values)).
Proof.
  split; [done|]. split; [done|]. split.
  - intros (s & d & Hin). unfold reduce. rewrite buckets_group.
    assert (Hnone : group_distances (PairKey a b) values = None); [|by rewrite Hnone].
    apply mapM_None_2, Exists_exists. by exists (Tuple2 s d).
  - intros Hne.
    destruct (reduce_cumulative (ClusterKey a) values _ (group_distances_single a values))
      as (l & Hl & _).
    + by destruct values.
    + by rewrite Hl.
Qed.

Lemma filter_all {A} (P : A → Prop) `{!∀ x, Decision (P x)} (l : list A) :
  (∀ x, x ∈ l → P x) → filter P l = l.
Proof.
  induction l as [|x l IH]; intros Hall; [done|].
  rewrite filter_cons_True by (apply Hall; left). f_equal.
  apply IH. intros y Hy. apply Hall. by right.
Qed.

Lemma count_le_max (ds : list nat) : count_le (max_list ds) ds = length ds.
Proof.
  unfold count_le. f_equal. apply filter_all. intros d Hd.
  by apply max_list_elem_of_le.
Qed.

(** The last cell of the list returned for a group is the number of values in
    the group, and the first cell is the number of values filed at distance
    0. *)
Theorem reduce_last_cell_is_group_size
    (item_id : key) (values : list value) (ds : list nat) :
  group_distances item_id values = Some ds → values ≠ [] →
  ∃ l, stat_distances <$> reduce item_id values = Some l
       ∧ last l = Some (length values)
       ∧ l !! 0 = Some (count_eq 0 ds).
Proof.
  intros Hds Hne.
  destruct (reduce_cumulative item_id values ds Hds) as (l & Hred & Hlen & Hcells).
  { by apply (mapM_nonempty _ _ _ Hds). }
  exists l. rewrite Hred. split; [done|]. split.
  - rewrite last_lookup, Hlen, Hcells by lia.
    replace (pred (max_list ds + 1)) with (max_list ds) by lia.
    rewrite count_le_max. f_equal. symmetry. by apply length_mapM in Hds.
  - rewrite Hcells by lia. by rewrite count_le_0.
Qed.

Lemma increment_comm (distances : gmap nat nat) (x y : nat) :
  increment (increment distances x) y = increment (increment distances y) x.
Proof.
  apply map_eq. intros j. unfold increment.
  destruct (decide (x = y)) as [->|Hxy]; [done|].
  rewrite (lookup_insert_ne distances x y), (lookup_insert_ne distances y x) by done.
  destruct (decide (j = x)) as [Hx|Hx]; [subst j|].
  - by rewrite lookup_insert_ne, !lookup_insert_eq by done.
  - rewrite (lookup_insert_ne _ x j) by done.
    destruct (decide (j = y)) as [Hy|Hy]; [subst j|].
    + by rewrite !lookup_insert_eq.
    + by rewrite !lookup_insert_ne by done.
Qed.

Lemma buckets_permutation (item_id : key) (values values' : list value) :
  values ≡ₚ values' → buckets item_id values' = buckets item_id values.
Proof.
  intros Hp. rewrite !buckets_group. unfold group_distances.
  generalize (∅ : gmap nat nat).
  induction Hp as [|v values values' _ IH|v w values|l1 l2 l3 _ IH1 _ IH2];
    intros distances.
  - done.
  - simpl. destruct (filed_at item_id v) as [d|]; [|done]. simpl.
    specialize (IH (increment distances d)).
    destruct (mapM _ values), (mapM _ values'); simpl in *; done.
  - simpl. destruct (filed_at item_id v) as [d|], (filed_at item_id w) as [e|];
      simpl; try done.
    destruct (mapM _ values); simpl; [|done]. by rewrite increment_comm.
  - by rewrite IH2, IH1.
Qed.

(** The order of the values of a group does not matter to the reducer. *)
Theorem reduce_permutation (item_id : key) (values values' : list value) :
  values ≡ₚ values' → reduce item_id values' = reduce item_id values.
Proof.
  intros Hp. unfold reduce. by rewrite (buckets_permutation _ _ _ Hp).
Qed.

End AggregatorMore.

Lemma reduce_failures_witness :
  ClusteringGenerator.reduce (PairKey 1 2) [Tuple3 "s1" 0 1; Tuple2 "s2" 1] = None.
Proof.
  apply (reduce_failures 1 2 [Tuple3 "s1" 0 1; Tuple2 "s2" 1]).
  exists "s2", 1. right. left.
Defined.

Lemma reduce_last_cell_is_group_size_witness :
  ∃ l, stat_distances <$> ClusteringGenerator.reduce (ClusterKey 7) four_observations
       = Some l
       ∧ last l = Some 4 ∧ l !! 0 = Some (count_eq 0 [0; 0; 1; 2]).
Proof.
  apply (reduce_last_cell_is_group_size (ClusterKey 7) four_observations [0; 0; 1; 2]).
  - reflexivity.
  - discriminate.
Defined.

Lemma reduce_permutation_witness :
  ClusteringGenerator.reduce (ClusterKey 7) [Tuple2 "s2" 1; Tuple2 "s1" 0]
  = ClusteringGenerator.reduce (ClusterKey 7) [Tuple2 "s1" 0; Tuple2 "s2" 1].
Proof. apply reduce_permutation. apply perm_swap. Defined.

(** ** From the classifier to the statistics *)

Section Batch.
Variable params : mapper_params.
Hypothesis distinct_ids : NoDup (cluster_id <$> clusters params).
Variable students : list student_vector.

Local Abbreviation maxd := (max_distance params).
Local Abbreviation cs := (clusters params).

Lemma shuffle_bind {X} (k : key) (f : X → list (key * value)) (l : list X) :
  shuffle k (l ≫= f) = l ≫= (λ x, shuffle k (f x)).
Proof.
  unfold shuffle. induction l as [|x l IH]; [done|].
  by rewrite !bind_cons, filter_app, fmap_app, IH.
Qed.

Lemma max_list_bounded (ds : list nat) (n : nat) :
  (∀ d, d ∈ ds → d ≤ n) → max_list ds ≤ n.
Proof.
  intros Hall. destruct ds as [|d ds]; [simpl; lia|].
  apply Hall, max_list_elem_of. done.
Qed.

Lemma shuffle_batch_single (c : cluster) :
  c ∈ cs →
  shuffle (ClusterKey (cluster_id c)) (mapper_output params students)
  = (λ s, Tuple2 (key_name s) (distance_to s c))
      <$> filter (λ s, distance_to s c ≤ maxd) students.
Proof.
  intros Hc. unfold mapper_output. rewrite shuffle_bind.
  induction students as [|s l IH]; [done|].
  rewrite bind_cons, IH, (shuffle_single params distinct_ids s c Hc), filter_cons.
  by destruct (decide (distance_to s c ≤ maxd)).
Qed.

Lemma shuffle_batch_pair (ca cb : cluster) (i j : nat) :
  cs !! i = Some ca → cs !! j = Some cb → i < j →
  shuffle (PairKey (cluster_id ca) (cluster_id cb)) (mapper_output params students)
  = (λ s, Tuple3 (key_name s) (distance_to s cb) (distance_to s ca))
      <$> filter (λ s, distance_to s ca ≤ maxd ∧ distance_to s cb ≤ maxd) students.
Proof.
  intros Hi Hj Hij. unfold mapper_output. rewrite shuffle_bind.
  induction students as [|s l IH]; [done|].
  rewrite bind_cons, IH, filter_cons.
  rewrite (proj1 (shuffle_pair params distinct_ids s ca cb i j Hi Hj Hij)).
  by destruct (decide (distance_to s ca ≤ maxd ∧ distance_to s cb ≤ maxd)).
Qed.

(** The count statistic of a cluster. The reducer of the cluster receives one
    value per student that retains it; when there is such a student, cell [d]
    of the list it returns is the number of students at distance at most [d]
    from the cluster, and the list has at most [max_distance + 1] cells. *)
Theorem count_statistic (c : cluster) :
  c ∈ cs →
  let values := shuffle (ClusterKey (cluster_id c)) (mapper_output params students) in
  values = (λ s, Tuple2 (key_name s) (distance_to s c))
             <$> filter (λ s, distance_to s c ≤ maxd) students
  ∧ ((∃ s, s ∈ students ∧ distance_to s c ≤ maxd) →
     ∃ l, ClusteringGenerator.reduce (ClusterKey (cluster_id c)) values
          = Some {| stat_name := "count";
                    stat_item_id := ClusterKey (cluster_id c);
                    stat_distances := l |}
          ∧ length l ≤ maxd + 1
          ∧ ∀ d, d < length l →
                 l !! d = Some (length (filter (λ s, distance_to s c ≤ d) students))).
Proof.
  intros Hc values. subst values. rewrite (shuffle_batch_single c Hc).
  split; [done|]. intros (s0 & Hs0 & Hr0).
  set (kept := filter (λ s, distance_to s c ≤ maxd) students).
  set (ds := (λ s, distance_to s c) <$> kept).
  assert (Hds : group_distances (ClusterKey (cluster_id c))
                  ((λ s, Tuple2 (key_name s) (distance_to s c)) <$> kept) = Some ds).
  { rewrite group_distances_single. unfold ds. by rewrite <- list_fmap_compose. }
  assert (Hne : ds ≠ []).
  { intros Hnil. apply fmap_nil_inv in Hnil.
    apply (elem_of_nil s0). rewrite <- Hnil. by apply list_elem_of_filter. }
  destruct (reduce_cumulative _ _ _ Hds Hne) as (l & Hred & Hlen & Hcells).
  assert (Hmax : max_list ds ≤ maxd).
  { apply max_list_bounded. intros d (s & -> & Hs)%list_elem_of_fmap.
    by apply list_elem_of_filter in Hs as [? _]. }
  exists l. split; [done|]. split; [lia|].
  intros d Hd. rewrite (Hcells d Hd). f_equal.
  unfold count_le, ds, kept. rewrite length_filter_fmap, list_filter_filter.
  f_equal. apply list_filter_iff. intros s. lia.
Qed.

(** The intersection statistic of two clusters, the first one processed
    before the second. The reducer of the pair receives one value per student
    that retains both clusters, and nothing arrives under the reversed key;
    when there is such a student, cell [d] of the list it returns is the
    number of students at distance at most [d] from both clusters. *)
Theorem intersection_statistic (ca cb : cluster) (i j : nat) :
  cs !! i = Some ca → cs !! j = Some cb → i < j →
  let values :=
    shuffle (PairKey (cluster_id ca) (cluster_id cb)) (mapper_output params students) in
  values = (λ s, Tuple3 (key_name s) (distance_to s cb) (distance_to s ca))
             <$> filter (λ s, distance_to s ca ≤ maxd ∧ distance_to s cb ≤ maxd) students
  ∧ shuffle (PairKey (cluster_id cb) (cluster_id ca)) (mapper_output params students) = []
  ∧ ((∃ s, s ∈ students ∧ distance_to s ca ≤ maxd ∧ distance_to s cb ≤ maxd) →
     ∃ l, ClusteringGenerator.reduce (PairKey (cluster_id ca) (cluster_id cb)) values
          = Some {| stat_name := "intersection";
                    stat_item_id := PairKey (cluster_id ca) (cluster_id cb);
                    stat_distances := l |}
          ∧ length l ≤ maxd + 1
          ∧ ∀ d, d < length l →
                 l !! d = Some (length (filter (λ s, distance_to s ca ≤ d
                                                     ∧ distance_to s cb ≤ d) students))).
Proof.
  intros Hi Hj Hij values. subst values.
  rewrite (shuffle_batch_pair ca cb i j Hi Hj Hij). split; [done|]. split.
  { unfold mapper_output. rewrite shuffle_bind.
    induction students as [|s l IH]; [done|].
    rewrite bind_cons, IH.
    by rewrite (proj2 (shuffle_pair params distinct_ids s ca cb i j Hi Hj Hij)). }
  intros (s0 & Hs0 & Hr0).
  set (kept := filter (λ s, distance_to s ca ≤ maxd ∧ distance_to s cb ≤ maxd) students).
  set (ds := (λ s, max (distance_to s cb) (distance_to s ca)) <$> kept).
  assert (Hds : group_distances (PairKey (cluster_id ca) (cluster_id cb))
                  ((λ s, Tuple3 (key_name s) (distance_to s cb) (distance_to s ca))
                     <$> kept) = Some ds).
  { unfold group_distances, ds.
    apply mapM_Some_2, Forall2_fmap, Forall_Forall2_diag. by apply Forall_forall. }
  assert (Hne : ds ≠ []).
  { intros Hnil. apply fmap_nil_inv in Hnil.
    apply (elem_of_nil s0). rewrite <- Hnil. by apply list_elem_of_filter. }
  destruct (reduce_cumulative _ _ _ Hds Hne) as (l & Hred & Hlen & Hcells).
  assert (Hmax : max_list ds ≤ maxd).
  { apply max_list_bounded. intros d (s & -> & Hs)%list_elem_of_fmap.
    apply list_elem_of_filter in Hs as [[? ?] _]. lia. }
  exists l. split; [done|]. split; [lia|].
  intros d Hd. rewrite (Hcells d Hd). f_equal.
  unfold count_le, ds, kept. rewrite length_filter_fmap, list_filter_filter.
  f_equal. apply list_filter_iff. intros s. lia.
Qed.

End Batch.

Lemma three_cluster_ids_distinct : NoDup (cluster_id <$> clusters three_cluster_params).
Proof. simpl. apply (bool_decide_unpack _). by vm_compute. Qed.

Lemma count_statistic_witness :
  ∃ l, ClusteringGenerator.reduce (ClusterKey 2)
         (shuffle (ClusterKey 2)
            (mapper_output three_cluster_params [blank_student; student_with_lesson]))
       = Some {| stat_name := "count"; stat_item_id := ClusterKey 2;
                 stat_distances := l |}
       ∧ length l ≤ 2 + 1
       ∧ ∀ d, d < length l →
              l !! d = Some (length (filter (λ s, distance_to s cluster_one_off ≤ d)
                                       [blank_student; student_with_lesson])).
Proof.
  apply (proj2 (count_statistic three_cluster_params three_cluster_ids_distinct
                  [blank_student; student_with_lesson] cluster_one_off
                  ltac:(right; left))).
  exists blank_student. split; [left|vm_compute; lia].
Defined.

Lemma intersection_statistic_witness :
  ∃ l, ClusteringGenerator.reduce (PairKey 1 2)
         (shuffle (PairKey 1 2)
            (mapper_output three_cluster_params [blank_student; student_with_lesson]))
       = Some {| stat_name := "intersection"; stat_item_id := PairKey 1 2;
                 stat_distances := l |}
       ∧ length l ≤ 2 + 1
       ∧ ∀ d, d < length l →
              l !! d = Some (length (filter (λ s, distance_to s cluster_matching_all ≤ d
                                                  ∧ distance_to s cluster_one_off ≤ d)
                                       [blank_student; student_with_lesson])).
Proof.
  apply (proj2 (proj2 (intersection_statistic three_cluster_params
                         three_cluster_ids_distinct
                         [blank_student; student_with_lesson]
                         cluster_matching_all cluster_one_off 0 1
                         eq_refl eq_refl ltac:(lia)))).
  exists blank_student. split; [left|vm_compute; lia].
Defined.

(** The statistics of the two sample students, computed. *)
Example batch_statistics_example :
  stat_distances <$> ClusteringGenerator.reduce (ClusterKey 2)
    (shuffle (ClusterKey 2)
       (mapper_output three_cluster_params [blank_student; student_with_lesson]))
  = Some [1; 2]
  ∧ stat_distances <$> ClusteringGenerator.reduce (PairKey 1 2)
      (shuffle (PairKey 1 2)
         (mapper_output three_cluster_params [blank_student; student_with_lesson]))
    = Some [1; 2].
Proof. split; by vm_compute. Qed.

(** ** Identifiers *)

Section Identifiers.

Lemma append_cons (c : Ascii.ascii) (s t : string) :
  String c s +:+ t = String c (s +:+ t).
Proof. done. Qed.

Lemma append_empty_r (s : string) : s +:+ "" = s.
Proof. induction s as [|c s IH]; [done|]. by rewrite append_cons, IH. Qed.

Lemma append_assoc (s1 s2 s3 : string) : (s1 +:+ s2) +:+ s3 = s1 +:+ s2 +:+ s3.
Proof. induction s1 as [|c s1 IH]; [done|]. by rewrite !append_cons, IH. Qed.

Lemma has_char_append (c : Ascii.ascii) (s1 s2 : string) :
  has_char c (s1 +:+ s2) = has_char c s1 || has_char c s2.
Proof.
  induction s1 as [|x s1 IH]; [done|]. rewrite append_cons. simpl.
  by destruct (decide (x = c)).
Qed.

Lemma prefix_append (sep rest : string) : String.prefix sep (sep +:+ rest) = true.
Proof.
  induction sep as [|c sep IH]; [by destruct rest|].
  rewrite append_cons. simpl. by destruct (Ascii.ascii_dec c c).
Qed.

Lemma prefix_other_char (c x : Ascii.ascii) (sep s : string) :
  x ≠ c → String.prefix (String c sep) (String x s) = false.
Proof. intros Hne. simpl. destruct (Ascii.ascii_dec c x); [congruence|done]. Qed.

(** Passing over the rest of a separator. *)
Lemma split_from_skip (sep t piece rest : string) :
  split_from sep (String.length t) piece (t +:+ rest) = split_from sep 0 piece rest.
Proof.
  induction t as [|x t IH]; [done|]. by rewrite append_cons.
Qed.

(** A piece without the first character of the separator, followed by the
    separator, is split off whole. *)
Lemma split_from_piece (c : Ascii.ascii) (sep a piece rest : string) :
  has_char c a = false →
  split_from (String c sep) 0 piece (a +:+ String c sep +:+ rest)
  = (piece +:+ a) :: split_from (String c sep) 0 "" rest.
Proof.
  revert piece. induction a as [|x a IH]; intros piece Ha.
  - rewrite append_empty_r.
    change ("" +:+ String c sep +:+ rest) with (String c (sep +:+ rest)).
    cbn [split_from].
    change (String c (sep +:+ rest)) with (String c sep +:+ rest).
    rewrite prefix_append. f_equal.
    change (String.length (String c sep) - 1) with (S (String.length sep) - 1).
    replace (S (String.length sep) - 1) with (String.length sep) by lia.
    apply split_from_skip.
  - simpl in Ha. destruct (decide (x = c)) as [|Hne]; [done|].
    change (String x a +:+ String c sep +:+ rest)
      with (String x (a +:+ String c sep +:+ rest)).
    cbn [split_from]. rewrite prefix_other_char by done.
    rewrite IH by done. f_equal. rewrite append_assoc. done.
Qed.

Lemma split_from_last (c : Ascii.ascii) (sep a piece : string) :
  has_char c a = false →
  split_from (String c sep) 0 piece a = [piece +:+ a].
Proof.
  revert piece. induction a as [|x a IH]; intros piece Ha.
  - by rewrite append_empty_r.
  - simpl in Ha. destruct (decide (x = c)) as [|Hne]; [done|].
    cbn [split_from]. rewrite prefix_other_char by done.
    rewrite IH by done. f_equal. rewrite append_assoc. done.
Qed.

Lemma py_split_piece (c : Ascii.ascii) (sep a rest : string) :
  has_char c a = false →
  py_split (String c sep) (a +:+ String c sep +:+ rest)
  = a :: py_split (String c sep) rest.
Proof. intros Ha. unfold py_split. by rewrite split_from_piece. Qed.

Lemma py_split_last (c : Ascii.ascii) (sep a : string) :
  has_char c a = false → py_split (String c sep) a = [a].
Proof. intros Ha. unfold py_split. by rewrite split_from_last. Qed.

(** Splitting at a single character gives one part more than there are
    occurrences of the character. *)
Lemma split_char_length (c : Ascii.ascii) (s piece : string) :
  length (split_from (String c "") 0 piece s) = S (count_char c s).
Proof.
  revert piece. induction s as [|x s IH]; intros piece; [done|].
  cbn [split_from count_char]. destruct (decide (x = c)) as [->|Hne].
  - change (String c s) with (String c "" +:+ s). rewrite prefix_append.
    simpl. by rewrite IH.
  - rewrite prefix_other_char by done. by rewrite IH.
Qed.

(** The id of a question dimension can be taken apart again: when none of the
    three texts contains a colon, unpacking gives them back, except that the
    lesson text "None" comes back as no lesson. *)
Theorem unpack_pack_question_dimid (unit_id lesson_id question_id : option string) :
  has_char ":"%char (py_str unit_id) = false →
  has_char ":"%char (py_str lesson_id) = false →
  has_char ":"%char (py_str question_id) = false →
  unpack_question_dimid (pack_question_dimid unit_id lesson_id question_id)
  = Some (py_str unit_id,
          (if decide (py_str lesson_id = "None") then None else Some (py_str lesson_id)),
          py_str question_id).
Proof.
  intros Hu Hl Hq. unfold unpack_question_dimid, pack_question_dimid.
  rewrite (py_split_piece ":"%char "" _ _ Hu), (py_split_piece ":"%char "" _ _ Hl),
    (py_split_last ":"%char "" _ Hq). done.
Qed.

(** Two placements of questions get the same dimension id only when their
    unit, lesson and question texts agree. *)
Theorem pack_question_dimid_inj (u l q u' l' q' : option string) :
  has_char ":"%char (py_str u) = false → has_char ":"%char (py_str l) = false →
  has_char ":"%char (py_str q) = false →
  has_char ":"%char (py_str u') = false → has_char ":"%char (py_str l') = false →
  has_char ":"%char (py_str q') = false →
  pack_question_dimid u l q = pack_question_dimid u' l' q' →
  py_str u = py_str u' ∧ py_str l = py_str l' ∧ py_str q = py_str q'.
Proof.
  intros Hu Hl Hq Hu' Hl' Hq' Heq.
  assert (Hs : py_split ":" (pack_question_dimid u l q)
               = py_split ":" (pack_question_dimid u' l' q')) by by rewrite Heq.
  unfold pack_question_dimid in Hs.
  rewrite (py_split_piece ":"%char "" _ _ Hu), (py_split_piece ":"%char "" _ _ Hl),
    (py_split_last ":"%char "" _ Hq) in Hs.
  rewrite (py_split_piece ":"%char "" _ _ Hu'), (py_split_piece ":"%char "" _ _ Hl'),
    (py_split_last ":"%char "" _ Hq') in Hs.
  by injection Hs as -> -> ->.
Qed.

(** Unpacking succeeds exactly on the texts with two colons. *)
Theorem unpack_question_dimid_defined (dimension_id : string) :
  is_Some (unpack_question_dimid dimension_id) ↔ count_char ":"%char dimension_id = 2.
Proof.
  unfold unpack_question_dimid, py_split.
  pose proof (split_char_length ":"%char dimension_id "") as Hlen.
  destruct (split_from ":" 0 "" dimension_id) as [|a [|b [|c [|d rest]]]];
    simpl in Hlen; split; intros H; try done; try lia;
    by destruct H.
Qed.

End Identifiers.

Lemma unpack_pack_question_dimid_witness :
  unpack_question_dimid (pack_question_dimid (Some "4") None (Some "17"))
  = Some ("4", None, "17").
Proof. by apply (unpack_pack_question_dimid (Some "4") None (Some "17")). Defined.

Lemma pack_question_dimid_inj_witness :
  py_str (Some "4") = py_str (Some "4") ∧ py_str None = py_str (Some "None")
  ∧ py_str (Some "17") = py_str (Some "17").
Proof.
  by apply (pack_question_dimid_inj (Some "4") None (Some "17")
              (Some "4") (Some "None") (Some "17")).
Defined.

(** ** Vector generation *)

Section VectorGeneration.
Import StudentVectorGenerator.

Lemma append_to_lookup {K} `{Countable K} {A} (m : gmap K (list A)) (k j : K) (x : A) :
  default [] (append_to m k x !! j)
  = default [] (m !! j) ++ (if decide (j = k) then [x] else []).
Proof.
  unfold append_to. destruct (decide (j = k)) as [->|Hne].
  - by rewrite lookup_insert_eq.
  - rewrite lookup_insert_ne by done. by rewrite app_nil_r.
Qed.

Lemma answers_loop (u l : option string) (sub : submission)
    (anss : list raw_answer) (idx : submission_index) :
  let idx' := fold_left (answer_step u l sub) anss idx in
  unit_data idx' = unit_data idx ∧ lesson_data idx' = lesson_data idx
  ∧ ∀ q, default [] (question_data idx' !! q)
         = default [] (question_data idx !! q)
           ++ (filter (λ p, p.1 = q) (stamped_answer u l sub <$> anss)).*2.
Proof.
  revert idx. induction anss as [|ans anss IH]; intros idx; cbn [fold_left].
  { split; [done|]. split; [done|]. intros q. simpl. by rewrite app_nil_r. }
  destruct (IH (answer_step u l sub idx ans)) as (Hu & Hl & Hq).
  split; [by rewrite Hu|]. split; [by rewrite Hl|].
  intros q. rewrite Hq. simpl question_data. rewrite append_to_lookup, fmap_cons, filter_cons. simpl.
  destruct (decide (pack_question_dimid u l (question_id ans) = q)) as [Hq'|Hq'].
  - rewrite decide_True by done. by rewrite <- app_assoc.
  - rewrite decide_False by done. by rewrite app_nil_r.
Qed.

Lemma submissions_loop (u l : option string) (subs : list submission)
    (idx : submission_index) :
  let idx' := fold_left (λ result sub,
                fold_left (answer_step u l sub) (answers sub) result) subs idx in
  unit_data idx' = unit_data idx ∧ lesson_data idx' = lesson_data idx
  ∧ ∀ q, default [] (question_data idx' !! q)
         = default [] (question_data idx !! q)
           ++ (filter (λ p, p.1 = q)
                 (subs ≫= (λ sub, stamped_answer u l sub <$> answers sub))).*2.
Proof.
  revert idx. induction subs as [|sub subs IH]; intros idx; cbn [fold_left].
  { split; [done|]. split; [done|]. intros q. simpl. by rewrite app_nil_r. }
  destruct (IH (fold_left (answer_step u l sub) (answers sub) idx)) as (Hu & Hl & Hq).
  destruct (answers_loop u l sub (answers sub) idx) as (Hu' & Hl' & Hq').
  split; [by rewrite Hu|]. split; [by rewrite Hl|].
  intros q. rewrite Hq, Hq', bind_cons, filter_app, fmap_app. by rewrite <- app_assoc.
Qed.

Lemma activities_loop (raw_data : list raw_activity) (idx : submission_index) :
  let idx' := fold_left activity_step raw_data idx in
  (∀ u, default [] (unit_data idx' !! u)
        = default [] (unit_data idx !! u)
          ++ filter (λ a, unit_id a = u) (activity_fields <$> raw_data))
  ∧ (∀ l, default [] (lesson_data idx' !! l)
          = default [] (lesson_data idx !! l)
            ++ filter (λ a, lesson_id a = l) (activity_fields <$> raw_data))
  ∧ (∀ q, default [] (question_data idx' !! q)
          = default [] (question_data idx !! q)
            ++ (filter (λ p, p.1 = q) (raw_data ≫= stamped_answers)).*2).
Proof.
  revert idx. induction raw_data as [|act raw_data IH]; intros idx; cbn [fold_left].
  { repeat split; intros; simpl; by rewrite app_nil_r. }
  destruct (IH (activity_step idx act)) as (Hu & Hl & Hq). clear IH.
  unfold activity_step in *.
  match goal with
  | |- context [fold_left ?f (submissions act) ?i] =>
      destruct (submissions_loop (unit_id (activity_fields act))
                  (lesson_id (activity_fields act)) (submissions act) i)
        as (Hu' & Hl' & Hq')
  end.
  simpl in Hu', Hl', Hq'. split; [|split].
  - intros u. rewrite Hu, Hu', append_to_lookup, fmap_cons, filter_cons.
    destruct (decide (unit_id (activity_fields act) = u)) as [Heq|Hne].
    + rewrite decide_True by done. by rewrite <- app_assoc.
    + rewrite decide_False by done. by rewrite app_nil_r.
  - intros l. rewrite Hl, Hl', append_to_lookup, fmap_cons, filter_cons.
    destruct (decide (lesson_id (activity_fields act) = l)) as [Heq|Hne].
    + rewrite decide_True by done. by rewrite <- app_assoc.
    + rewrite decide_False by done. by rewrite app_nil_r.
  - intros q. rewrite Hq, Hq', bind_cons, filter_app, fmap_app.
    by rewrite <- app_assoc.
Qed.

(** What the index holds. Under a unit id: the activities with that unit id,
    in the order of the raw data (an activity without unit id is filed under
    [None]); likewise under a lesson id; under the id of a question
    dimension: the answers packed to that id, each with the timestamp of its
    submission. Any other key reads as the empty list. *)
Theorem inverse_submission_data_contents
    (dimensions : list dimension) (raw_data : list raw_activity) :
  let idx := _inverse_submission_data dimensions raw_data in
  (∀ u, default [] (unit_data idx !! u)
        = filter (λ a, unit_id a = u) (activity_fields <$> raw_data))
  ∧ (∀ l, default [] (lesson_data idx !! l)
          = filter (λ a, lesson_id a = l) (activity_fields <$> raw_data))
  ∧ (∀ q, default [] (question_data idx !! q)
          = (filter (λ p, p.1 = q) (raw_data ≫= stamped_answers)).*2).
Proof.
  unfold _inverse_submission_data.
  destruct (activities_loop raw_data
              {| unit_data := ∅; lesson_data := ∅; question_data := ∅ |})
    as (Hu & Hl & Hq).
  simpl in *. split; [|split]; intros k.
  - by rewrite Hu, lookup_empty.
  - by rewrite Hl, lookup_empty.
  - by rewrite Hq, lookup_empty.
Qed.

Lemma unit_score_value (data : list activity) (dim : dimension) :
  _get_unit_score data dim
  = Some (fsum (matching_scores (DIM_ID dim) data)
          / inject_Z (Z.max (lesson_count dim) 1))%Q.
Proof.
  unfold _get_unit_score, py_div. rewrite unit_loop_sum, scored_lessons_max.
  destruct (Z.eqb_spec (Z.max (lesson_count dim) 1) 0) as [H0|_]; [lia|done].
Qed.

Lemma matching_scores_filter (dim_id : string) (data : list activity) :
  matching_scores dim_id (filter (λ a, unit_id a = Some dim_id) data)
  = matching_scores dim_id data.
Proof.
  unfold matching_scores. rewrite list_filter_filter. f_equal.
  apply list_filter_iff. intros a. tauto.
Qed.

Lemma lesson_score_filter (dim : dimension) (data : list activity) :
  _get_lesson_score (filter (λ a, lesson_id a = Some (DIM_ID dim)) data) dim
  = _get_lesson_score data dim.
Proof.
  induction data as [|a data IH]; [done|].
  rewrite filter_cons. destruct (decide (lesson_id a = Some (DIM_ID dim))) as [Heq|Hne].
  - simpl. rewrite Heq, IH. done.
  - rewrite IH. simpl. destruct (lesson_id a) as [l|]; [|by destruct (last_score a)].
    destruct (last_score a); [|done]. rewrite decide_False; [done|]. by intros ->.
Qed.

(** The lesson score is the last score of the first record that has the
    lesson id of the dimension and a last score; records without a last score
    are passed over; without such a record the score is 0. *)
Theorem lesson_score_first_match
    (data before after : list activity) (a : activity) (dim : dimension) (s : Q) :
  (data = before ++ a :: after →
   (∀ b, b ∈ before → ¬ scores_lesson (DIM_ID dim) b) →
   lesson_id a = Some (DIM_ID dim) → last_score a = Some s →
   _get_lesson_score data dim = s)
  ∧ ((∀ b, b ∈ data → ¬ scores_lesson (DIM_ID dim) b) →
     _get_lesson_score data dim = 0%Q).
Proof.
  assert (Hskip : ∀ l rest, (∀ b, b ∈ l → ¬ scores_lesson (DIM_ID dim) b) →
            _get_lesson_score (l ++ rest) dim = _get_lesson_score rest dim).
  { intros l rest. induction l as [|b l IH]; intros Hno; [done|].
    simpl. rewrite IH by (intros b' Hb'; apply Hno; by right).
    assert (Hb : ¬ scores_lesson (DIM_ID dim) b) by (apply Hno; left).
    unfold scores_lesson in Hb.
    destruct (lesson_id b) as [l'|]; [|done].
    destruct (last_score b) as [s'|]; [|done].
    destruct (decide (l' = DIM_ID dim)) as [->|]; [|done].
    exfalso. apply Hb. by split; [|eexists]. }
  split.
  - intros -> Hbefore Hl Hs. rewrite Hskip by done. simpl.
    rewrite Hl, Hs. by rewrite decide_True.
  - intros Hno. rewrite <- (app_nil_r data). by rewrite Hskip.
Qed.

Lemma dimension_value_known (data : submission_index) (dim : dimension) :
  (known_type dim → is_Some (dimension_value data dim))
  ∧ (¬ known_type dim → dimension_value data dim = None).
Proof.
  unfold known_type, dimension_value.
  destruct (decide (DIM_TYPE dim = DIMENSION_TYPE_QUESTION)) as [Hq|Hq].
  { split; [by eexists|]. tauto. }
  destruct (decide (DIM_TYPE dim = DIMENSION_TYPE_LESSON)) as [Hl|Hl].
  { split; [by eexists|]. tauto. }
  destruct (decide (DIM_TYPE dim = DIMENSION_TYPE_UNIT)) as [Hu|Hu].
  { split; [|tauto]. intros _. rewrite unit_score_value. by eexists. }
  split; [tauto|done].
Qed.

(** The value the generator gives a dimension, read off the raw data. A unit:
    the sum of the last scores of the activities with its unit id, over
    max(scored-lesson count, 1). A lesson: the lesson score over all the
    activities. A question: the question score of the answers packed to its
    id, with the timestamps of their submissions. *)
Theorem dimension_value_from_raw_data
    (dimensions : list dimension) (raw_data : list raw_activity) (dim : dimension) :
  let data := _inverse_submission_data dimensions raw_data in
  (DIM_TYPE dim = DIMENSION_TYPE_UNIT →
   dimension_value data dim
   = Some (fsum (matching_scores (DIM_ID dim) (activity_fields <$> raw_data))
           / inject_Z (Z.max (lesson_count dim) 1))%Q)
  ∧ (DIM_TYPE dim = DIMENSION_TYPE_LESSON →
     dimension_value data dim
     = Some (_get_lesson_score (activity_fields <$> raw_data) dim))
  ∧ (DIM_TYPE dim = DIMENSION_TYPE_QUESTION →
     dimension_value data dim
     = Some (_get_question_score
               (filter (λ p, p.1 = DIM_ID dim) (raw_data ≫= stamped_answers)).*2)).
Proof.
  intros data. subst data.
  destruct (activities_loop raw_data
              {| unit_data := ∅; lesson_data := ∅; question_data := ∅ |})
    as (Hu & Hl & Hq).
  fold (_inverse_submission_data dimensions raw_data) in Hu, Hl, Hq.
  simpl in Hu, Hl, Hq. unfold dimension_value. split; [|split]; intros Hty.
  - rewrite Hty. simpl. rewrite Hu, lookup_empty. simpl.
    by rewrite unit_score_value, matching_scores_filter.
  - rewrite Hty. simpl. rewrite Hl, lookup_empty. simpl.
    by rewrite lesson_score_filter.
  - rewrite Hty. simpl. by rewrite Hq, lookup_empty.
Qed.

(** The outcomes of the generator. Without assessments nothing is stored.
    With assessments, a dimension of unknown type makes it fail; otherwise it
    stores, under the key name of the aggregate, a vector with one entry per
    dimension of the catalog, in the same order, with the type, the id and
    the value of that dimension. *)
Theorem map_outcomes (possible_dimensions : list dimension) (item : student_aggregate) :
  (assessments item = [] → map possible_dimensions item = Skipped)
  ∧ (assessments item ≠ [] →
     (∃ dim, dim ∈ possible_dimensions ∧ ¬ known_type dim) →
     map possible_dimensions item = Raised)
  ∧ (assessments item ≠ [] →
     (∀ dim, dim ∈ possible_dimensions → known_type dim) →
     ∃ v, map possible_dimensions item
          = Stored {| key_name := aggregate_key_name item; vector := v |}
          ∧ length v = length possible_dimensions
          ∧ ∀ k dim, possible_dimensions !! k = Some dim →
              ∃ e, v !! k = Some e
                   ∧ sv_type e = DIM_TYPE dim ∧ sv_id e = DIM_ID dim
                   ∧ dimension_value
                       (_inverse_submission_data possible_dimensions (assessments item))
                       dim = Some (sv_value e)).
Proof.
  unfold map. split; [by intros ->|].
  destruct (assessments item) as [|act raw] eqn:Hraw; [split; by intros []|].
  set (data := _inverse_submission_data possible_dimensions (act :: raw)).
  split.
  - intros _ (dim & Hin & Hunknown).
    rewrite (mapM_None_2 _ possible_dimensions); [done|].
    apply Exists_exists. exists dim. split; [done|]. cbv beta.
    by rewrite (proj2 (dimension_value_known data dim) Hunknown).
  - intros _ Hknown.
    destruct (mapM (λ dim, value ← dimension_value data dim;
                     Some {| sv_type := DIM_TYPE dim; sv_id := DIM_ID dim;
                             sv_value := value |}) possible_dimensions)
      as [v|] eqn:Hm.
    + apply mapM_Some_1 in Hm. exists v. split; [done|].
      split; [symmetry; by eapply Forall2_length|].
      intros k dim Hk.
      destruct (Forall2_lookup_l _ _ _ _ _ Hm Hk) as (e & He & Hg).
      exists e. split; [done|].
      destruct (dimension_value data dim) as [q|]; [|done].
      simpl in Hg. by injection Hg as <-.
    + exfalso. apply mapM_None_1, Exists_exists in Hm as (dim & Hin & Hnone).
      destruct (proj1 (dimension_value_known data dim) (Hknown dim Hin)) as [q Hq].
      by rewrite Hq in Hnone.
Qed.

(** The generated vector and the look-up of the distance engine: for the
    first dimension of the catalog with a given id and type, looking that id
    and type up in the stored vector gives the value computed for it. *)
Theorem generated_vector_lookup
    (possible_dimensions before after : list dimension) (dim : dimension)
    (item : student_aggregate) (entity : student_vector) :
  map possible_dimensions item = Stored entity →
  possible_dimensions = before ++ dim :: after →
  (∀ d, d ∈ before → ¬ (DIM_ID d = DIM_ID dim ∧ DIM_TYPE d = DIM_TYPE dim)) →
  StudentVector.get_dimension_value (vector entity) (DIM_ID dim) (DIM_TYPE dim)
  = dimension_value
      (_inverse_submission_data possible_dimensions (assessments item)) dim.
Proof.
  unfold map. intros Hmap Hdims Hbefore.
  destruct (assessments item) as [|act raw] eqn:Hraw; [done|].
  set (data := _inverse_submission_data possible_dimensions (act :: raw)) in *.
  destruct (mapM _ possible_dimensions) as [v|] eqn:Hm; [|done].
  injection Hmap as <-. simpl. apply mapM_Some_1 in Hm. rewrite Hdims in Hm.
  apply Forall2_app_inv_l in Hm as (v1 & v2 & Hv1 & Hv2 & ->).
  apply Forall2_cons_inv_l in Hv2 as (e & v3 & He & _ & ->).
  destruct (dimension_value data dim) as [q|]; [|done].
  simpl in He. injection He as <-.
  unfold StudentVector.get_dimension_value.
  rewrite filter_app, filter_cons_True by done.
  rewrite filter_none; [done|].
  intros e' He' [Hid Hty].
  apply list_elem_of_lookup_1 in He' as [k Hk].
  destruct (Forall2_lookup_r _ _ _ _ _ Hv1 Hk) as (d & Hd & Hg).
  destruct (dimension_value data d) as [q'|]; [|done].
  simpl in Hg. injection Hg as <-. simpl in Hid, Hty.
  apply (Hbefore d); [by apply list_elem_of_lookup_2 in Hd|done].
Qed.

End VectorGeneration.

Lemma lesson_score_first_match_witness :
  StudentVectorGenerator._get_lesson_score two_lesson_records
    {| DIM_TYPE := DIMENSION_TYPE_LESSON; DIM_ID := "2";
       DIM_LOW := KeyAbsent; DIM_HIGH := KeyAbsent; DIM_EXTRA_INFO := None |}
  = 1%Q.
Proof.
  apply (proj1 (lesson_score_first_match two_lesson_records
                  [ {| unit_id := Some "7"; lesson_id := Some "1"; last_score := Some 0.5%Q |};
                    {| unit_id := Some "8"; lesson_id := Some "1"; last_score := Some 0.9%Q |} ]
                  [ {| unit_id := Some "7"; lesson_id := Some "3"; last_score := None |} ]
                  {| unit_id := Some "7"; lesson_id := Some "2"; last_score := Some 1%Q |}
                  _ 1%Q)); try done.
  apply (proj1 (Forall_forall _ _)).
  repeat constructor; intros [Hl _]; discriminate Hl.
Defined.

Lemma dimension_value_from_raw_data_witness :
  StudentVectorGenerator.dimension_value
    (StudentVectorGenerator._inverse_submission_data sample_catalog
       (assessments sample_aggregate))
    unit_with_two_lessons
  = Some (fsum (matching_scores "7" (activity_fields <$> assessments sample_aggregate))
          / inject_Z (Z.max (lesson_count unit_with_two_lessons) 1))%Q.
Proof.
  by apply (proj1 (dimension_value_from_raw_data sample_catalog
                     (assessments sample_aggregate) unit_with_two_lessons)).
Defined.

Lemma map_outcomes_witness :
  ∃ v, StudentVectorGenerator.map sample_catalog sample_aggregate
       = StudentVectorGenerator.Stored {| key_name := "student-1"; vector := v |}
       ∧ length v = 3
       ∧ ∀ k dim, sample_catalog !! k = Some dim →
           ∃ e, v !! k = Some e
                ∧ sv_type e = DIM_TYPE dim ∧ sv_id e = DIM_ID dim
                ∧ StudentVectorGenerator.dimension_value
                    (StudentVectorGenerator._inverse_submission_data sample_catalog
                       (assessments sample_aggregate))
                    dim = Some (sv_value e).
Proof.
  apply (proj2 (proj2 (map_outcomes sample_catalog sample_aggregate))).
  - discriminate.
  - apply (proj1 (Forall_forall _ _)). unfold known_type.
    apply Forall_cons. split; [by left|].
    apply Forall_cons. split; [right; by left|].
    apply Forall_cons. split; [right; by right|].
    apply Forall_nil_2.
Defined.

(** The vector generated for the sample aggregate. *)
Example map_example :
  ∃ v, StudentVectorGenerator.map sample_catalog sample_aggregate
       = StudentVectorGenerator.Stored {| key_name := "student-1"; vector := v |}
       ∧ Forall2 (λ e x, sv_type e = x.1.1 ∧ sv_id e = x.1.2 ∧ (sv_value e == x.2)%Q)
           v [ ("u", "7", 0.25%Q); ("l", "1", 0.5%Q); ("q", "7:1:17", 1%Q) ].
Proof.
  eexists. split; [reflexivity|].
  repeat constructor; vm_compute; reflexivity.
Qed.

Lemma generated_vector_lookup_witness :
  StudentVector.get_dimension_value
    (vector (match StudentVectorGenerator.map sample_catalog sample_aggregate with
             | StudentVectorGenerator.Stored entity => entity
             | _ => blank_student
             end))
    "1" DIMENSION_TYPE_LESSON
  = StudentVectorGenerator.dimension_value
      (StudentVectorGenerator._inverse_submission_data sample_catalog
         (assessments sample_aggregate))
      {| DIM_TYPE := DIMENSION_TYPE_LESSON; DIM_ID := "1";
         DIM_LOW := KeyAbsent; DIM_HIGH := KeyAbsent; DIM_EXTRA_INFO := None |}.
Proof.
  apply (generated_vector_lookup sample_catalog [unit_with_two_lessons]
           [ {| DIM_TYPE := DIMENSION_TYPE_QUESTION; DIM_ID := "7:1:17";
                DIM_LOW := KeyAbsent; DIM_HIGH := KeyAbsent; DIM_EXTRA_INFO := None |} ]
           {| DIM_TYPE := DIMENSION_TYPE_LESSON; DIM_ID := "1";
              DIM_LOW := KeyAbsent; DIM_HIGH := KeyAbsent; DIM_EXTRA_INFO := None |}
           sample_aggregate).
  - reflexivity.
  - reflexivity.
  - intros d ->%list_elem_of_singleton [Hid _]. discriminate Hid.
Defined.

(** ** Dimension catalog *)

Section Catalog.

Lemma item_step_eq (unit : unit_entry) (result : list (dimension * string))
    (n : nat) (item : content_item) :
  item_step unit (result, n) item
  = (result ++ item_dimensions unit item,
     n + (if counts_as_scored item then 1 else 0)).
Proof.
  unfold item_step, item_dimensions, scored_dimension, counts_as_scored,
    scored_lesson, included_assessment.
  destruct (py_text_bool (item_title item) && py_text_bool (item_lesson_id item)
            && default false (tallied item)); simpl.
  - by rewrite <- app_assoc.
  - destruct (py_text_bool (item_unit_id item) && py_text_bool (item_title item)); simpl.
    + by rewrite <- app_assoc.
    + f_equal. lia.
Qed.

Lemma items_loop (unit : unit_entry) (items : list content_item)
    (result : list (dimension * string)) (n : nat) :
  fold_left (item_step unit) items (result, n)
  = (result ++ (items ≫= item_dimensions unit),
     n + length (filter (λ item, counts_as_scored item = true) items)).
Proof.
  revert result n. induction items as [|item items IH]; intros result n.
  { simpl. rewrite app_nil_r. f_equal. lia. }
  cbn [fold_left]. rewrite item_step_eq, IH, bind_cons, filter_cons.
  rewrite <- app_assoc. f_equal.
  destruct (counts_as_scored item); simpl; lia.
Qed.

Lemma unit_step_eq (result : list (dimension * string)) (unit : unit_entry) :
  unit_step result unit
  = result
    ++ unit_dimension unit
         (length (filter (λ item, counts_as_scored item = true) (contents unit)))
       :: contents_dimensions unit.
Proof. unfold unit_step. by rewrite items_loop. Qed.

Lemma units_loop (units : list unit_entry) (result : list (dimension * string)) :
  fold_left unit_step units result
  = result
    ++ (units ≫= (λ unit,
          unit_dimension unit
            (length (filter (λ item, counts_as_scored item = true) (contents unit)))
          :: contents_dimensions unit)).
Proof.
  revert result. induction units as [|unit units IH]; intros result.
  { simpl. by rewrite app_nil_r. }
  cbn [fold_left]. rewrite IH, unit_step_eq, bind_cons, <- app_assoc. done.
Qed.

Lemma scored_dimension_types (item : content_item) :
  Forall (λ d, DIM_TYPE d.1 ≠ DIMENSION_TYPE_QUESTION ∧ DIM_EXTRA_INFO d.1 = None)
    (scored_dimension item)
  ∧ length (scored_dimension item) = (if counts_as_scored item then 1 else 0).
Proof.
  unfold scored_dimension, counts_as_scored.
  destruct (scored_lesson item); [by repeat constructor|].
  destruct (included_assessment item); by repeat constructor.
Qed.

Lemma contents_not_questions (unit : unit_entry) (items : list content_item) :
  length (filter (λ d, DIM_TYPE d.1 ≠ DIMENSION_TYPE_QUESTION)
            (items ≫= item_dimensions unit))
  = length (filter (λ item, counts_as_scored item = true) items).
Proof.
  induction items as [|item items IH]; [done|].
  rewrite bind_cons, filter_app, length_app, IH, filter_cons.
  unfold item_dimensions. rewrite filter_app, length_app.
  destruct (scored_dimension_types item) as [Hty Hlen].
  rewrite (filter_all _ (scored_dimension item)), Hlen.
  2:{ intros d Hd. by apply (proj1 (Forall_forall _ _) Hty). }
  rewrite (filter_none _ (question_dimension unit item <$> questions item)).
  2:{ intros d (q & -> & _)%list_elem_of_fmap Hne. by apply Hne. }
  destruct (counts_as_scored item); simpl; lia.
Qed.

(** The catalog is made of one block per unit, in order: the dimension of the
    unit followed by the dimensions of its contents. The count in the extra
    info of the unit is the number of lesson and assessment dimensions of its
    block, so the divisor of its unit score is that number, or 1 when there
    is none; no dimension of the contents has extra info, so an included
    assessment is scored with divisor 1. *)
Theorem catalog_unit_blocks (before after : list unit_entry) (unit : unit_entry) :
  ∃ count,
    get_possible_dimensions (before ++ unit :: after)
    = get_possible_dimensions before
      ++ unit_dimension unit count :: contents_dimensions unit
      ++ get_possible_dimensions after
    ∧ count = length (filter (λ d, DIM_TYPE d.1 ≠ DIMENSION_TYPE_QUESTION)
                        (contents_dimensions unit))
    ∧ StudentVectorGenerator.scored_lessons (unit_dimension unit count).1
      = Z.max (Z.of_nat count) 1
    ∧ Forall (λ d, StudentVectorGenerator.scored_lessons d.1 = 1%Z)
        (contents_dimensions unit).
Proof.
  exists (length (filter (λ item, counts_as_scored item = true) (contents unit))).
  split; [|split; [|split]].
  - unfold get_possible_dimensions. rewrite !units_loop. cbn [app].
    by rewrite bind_app, bind_cons.
  - unfold contents_dimensions. by rewrite contents_not_questions.
  - done.
  - unfold contents_dimensions. apply Forall_forall.
    intros d (item & Hd & _)%list_elem_of_bind.
    unfold item_dimensions in Hd. apply elem_of_app in Hd as [Hd|Hd].
    + destruct (scored_dimension_types item) as [Hty _].
      destruct (proj1 (Forall_forall _ _) Hty d Hd) as [_ Hextra].
      unfold StudentVectorGenerator.scored_lessons. by rewrite Hextra.
    + by apply list_elem_of_fmap in Hd as (q & -> & _).
Qed.

(** The question dimensions of the catalog are exactly the dimensions of the
    questions of all the items of all the units: a question gets its
    dimension whether or not its item is tallied, titled or a lesson. *)
Theorem catalog_questions (units : list unit_entry) (d : dimension * string) :
  (d ∈ get_possible_dimensions units ∧ DIM_TYPE d.1 = DIMENSION_TYPE_QUESTION)
  ↔ ∃ unit item question,
      unit ∈ units ∧ item ∈ contents unit ∧ question ∈ questions item
      ∧ d = question_dimension unit item question.
Proof.
  unfold get_possible_dimensions. rewrite units_loop. simpl. split.
  - intros [(unit & Hd & Hunit)%list_elem_of_bind Hty].
    apply elem_of_cons in Hd as [->|Hd]; [done|].
    apply list_elem_of_bind in Hd as (item & Hd & Hitem).
    unfold item_dimensions in Hd. apply elem_of_app in Hd as [Hd|Hd].
    + destruct (scored_dimension_types item) as [Hsc _].
      by destruct (proj1 (Forall_forall _ _) Hsc d Hd) as [Hne _].
    + apply list_elem_of_fmap in Hd as (q & -> & Hq). by exists unit, item, q.
  - intros (unit & item & q & Hunit & Hitem & Hq & ->). split; [|done].
    apply list_elem_of_bind. exists unit. split; [|done]. right.
    apply list_elem_of_bind. exists item. split; [|done].
    unfold item_dimensions. apply elem_of_app. right. by apply list_elem_of_fmap_2.
Qed.

End Catalog.

(** The catalog of the sample unit: the lesson that is not graded gets no
    dimension, its question does. *)
Example catalog_example :
  (λ d, (DIM_TYPE d.1, DIM_ID d.1, DIM_EXTRA_INFO d.1)) <$> get_possible_dimensions [sample_unit]
  = [ ("u", "7", Some {| unit_scored_lessons := Some 2%Z |});
      ("l", "1", None); ("q", "7:1:17", None);
      ("q", "7:2:18", None);
      ("u", "9", None); ("q", "9:None:19", None) ].
Proof. reflexivity. Qed.

(** ** Cluster editor *)

Section Editor.
Import ClusterRESTHandler.

(** The select id of a dimension can be taken apart again when neither the id
    nor the type contains a hyphen: every dimension prepared for the editor
    unpacks to its own id and type, and its other fields are untouched. *)
Theorem editor_ids_unpack (vector : list dimension) :
  Forall (λ dim, has_char "-" (DIM_ID dim) = false
                 ∧ has_char "-" (DIM_TYPE dim) = false) vector →
  Forall2 (λ dim dim',
             unpack_id (DIM_ID dim') = [DIM_ID dim; DIM_TYPE dim]
             ∧ DIM_TYPE dim' = DIM_TYPE dim
             ∧ DIM_LOW dim' = DIM_LOW dim ∧ DIM_HIGH dim' = DIM_HIGH dim
             ∧ DIM_EXTRA_INFO dim' = DIM_EXTRA_INFO dim)
    vector (transform_for_editor_hook vector).
Proof.
  intros Hall. unfold transform_for_editor_hook.
  apply Forall2_fmap_r, Forall_Forall2_diag.
  apply (Forall_impl _ _ _ Hall). intros dim [Hid Hty]. simpl.
  split; [|done]. unfold unpack_id, pack_id.
  by rewrite (py_split_piece "-" "--" _ _ Hid), (py_split_last "-" "--" _ Hty).
Qed.

(** An id that ends with a hyphen is not given back: the hyphen goes to the
    type. *)
Theorem unpack_id_trailing_hyphen (dim_id dim_type : string) :
  has_char "-" dim_id = false → has_char "-" dim_type = false →
  unpack_id (pack_id (dim_id +:+ "-") dim_type) = [dim_id; "-" +:+ dim_type].
Proof.
  intros Hid Hty. unfold unpack_id, pack_id.
  replace ((dim_id +:+ "-") +:+ "---" +:+ dim_type)
    with (dim_id +:+ "---" +:+ "-" +:+ dim_type).
  2:{ rewrite append_assoc. done. }
  rewrite (py_split_piece "-" "--" _ _ Hid). f_equal.
  unfold py_split. change ("-" +:+ dim_type) with (String "-" dim_type).
  cbn [split_from].
  assert (Hp : String.prefix "---" (String "-" dim_type) = false).
  { destruct dim_type as [|x t]; [done|]. simpl in Hty.
    destruct (decide (x = "-"%char)) as [|Hne]; [done|].
    change (String.prefix "---" (String "-" (String x t)))
      with (if Ascii.ascii_dec "-" "-" then String.prefix "--" (String x t) else false).
    destruct (Ascii.ascii_dec "-" "-"); [|done].
    by apply prefix_other_char. }
  rewrite Hp. by rewrite (split_from_last "-" "--" _ _ Hty).
Qed.

Lemma convert_side_spec (float : string → option pyfloat) (index : nat) (f : field)
    (errors : list validation_error) :
  ∃ new, convert_side float index f errors
         = (bound_after_validation float f, errors ++ new)
         ∧ (new = [] → none_or_number (bound_after_validation float f)).
Proof.
  unfold convert_side, bound_after_validation, none_or_number.
  destruct (field_has_side f).
  - destruct (to_float float f) as [x|].
    + exists []. rewrite app_nil_r. split; [done|]. intros _. right. by exists x.
    + exists [NonNumeric index]. split; [done|]. done.
  - exists []. rewrite app_nil_r. split; [done|]. intros _. by left.
Qed.

Lemma float_lt_finite (hi lo : Q) :
  float_lt (Finite hi) (Finite lo) = false ↔ (lo <= hi)%Q.
Proof. simpl. by rewrite negb_false_iff, Qle_bool_iff. Qed.

(** Not-a-number is never below and never above another float. *)
Lemma float_lt_NaN (x : pyfloat) : float_lt x NaN = false ∧ float_lt NaN x = false.
Proof. by destruct x. Qed.

(** One iteration of [validate]: it appends one dimension and some errors;
    when it appends no error, the dimension has bounds that are [None] or
    floats, on which the test [high < low] is false. *)
Lemma validate_dimension_spec (float : string → option pyfloat)
    (validated : list validated_dimension) (errors : list validation_error)
    (index : nat) (dim : edited_dimension)
    (validated' : list validated_dimension) (errors' : list validation_error) :
  validate_dimension float (Some (validated, errors)) (index, dim)
  = Some (validated', errors') →
  ∃ d new,
    validated' = validated ++ [d] ∧ errors' = errors ++ new
    ∧ unpack_id (edited_id dim) = [validated_id d; validated_type d]
    ∧ validated_low d = bound_after_validation float (edited_low dim)
    ∧ validated_high d = bound_after_validation float (edited_high dim)
    ∧ validated_extra_info d = edited_extra_info dim
    ∧ (new = [] → none_or_number (validated_low d) ∧ none_or_number (validated_high d)
                  ∧ well_ordered d ∧ finite_ordered d).
Proof.
  unfold validate_dimension. simpl.
  destruct (convert_side_spec float index (edited_high dim) errors)
    as (new1 & -> & Hn1).
  destruct (convert_side_spec float index (edited_low dim) (errors ++ new1))
    as (new2 & -> & Hn2).
  set (lo := bound_after_validation float (edited_low dim)) in *.
  set (hi := bound_after_validation float (edited_high dim)) in *.
  destruct (unpack_id (edited_id dim)) as [|a [|b [|c rest]]]; try done.
  intros [= <- <-].
  destruct (field_has_side lo && field_has_side hi && py2_lt hi lo) eqn:Hcheck.
  - eexists. exists (new1 ++ new2 ++ [WrongRange index]).
    split; [done|]. split; [by rewrite !app_assoc|].
    repeat (split; [done|]). intros Hnil.
    apply app_eq_nil in Hnil as [_ Hnil]. by apply app_eq_nil in Hnil as [_ Hnil].
  - eexists. exists (new1 ++ new2).
    split; [done|]. split; [by rewrite !app_assoc|].
    repeat (split; [done|]). intros Hnil. apply app_eq_nil in Hnil as [-> ->].
    split; [by apply Hn2|]. split; [by apply Hn1|].
    assert (Hord : ∀ l h, lo = FieldNumber l → hi = FieldNumber h →
                          float_lt h l = false).
    { intros l h Hl Hh. by rewrite Hl, Hh in Hcheck. }
    split; [exact Hord|].
    intros l h Hl Hh. by apply float_lt_finite, Hord.
Qed.

Lemma validate_loop_None (float : string → option pyfloat)
    (entries : list (nat * edited_dimension)) :
  fold_left (validate_dimension float) entries None = None.
Proof. by induction entries. Qed.

Lemma validate_loop (float : string → option pyfloat)
    (entries : list (nat * edited_dimension))
    (validated : list validated_dimension) (errors : list validation_error)
    (validated' : list validated_dimension) (errors' : list validation_error) :
  fold_left (validate_dimension float) entries (Some (validated, errors))
  = Some (validated', errors') →
  ∃ ds new,
    validated' = validated ++ ds ∧ errors' = errors ++ new
    ∧ Forall2 (λ e d,
                 unpack_id (edited_id e.2) = [validated_id d; validated_type d]
                 ∧ validated_low d = bound_after_validation float (edited_low e.2)
                 ∧ validated_high d = bound_after_validation float (edited_high e.2)
                 ∧ validated_extra_info d = edited_extra_info e.2)
        entries ds
    ∧ (new = [] → Forall (λ d, none_or_number (validated_low d)
                               ∧ none_or_number (validated_high d)
                               ∧ well_ordered d ∧ finite_ordered d) ds).
Proof.
  revert validated errors.
  induction entries as [|[index dim] entries IH]; intros validated errors Hfold.
  { injection Hfold as <- <-. exists [], []. rewrite !app_nil_r.
    repeat split; by constructor. }
  cbn [fold_left] in Hfold.
  destruct (validate_dimension float (Some (validated, errors)) (index, dim))
    as [[v1 e1]|] eqn:Hstep; [|by rewrite validate_loop_None in Hfold].
  apply validate_dimension_spec in Hstep
    as (d & new1 & -> & -> & Hid & Hlo & Hhi & Hex & Hclean).
  apply IH in Hfold as (ds & new2 & -> & -> & Hrel & Hclean2).
  exists (d :: ds), (new1 ++ new2).
  split; [by rewrite <- app_assoc|]. split; [by rewrite <- app_assoc|].
  split; [by constructor|].
  intros Hnil. apply app_eq_nil in Hnil as [-> ->].
  constructor; [by apply Hclean|by apply Hclean2].
Qed.

Lemma Forall2_imap_snd {A B} (P : A → B → Prop) (f : nat → A → nat * A)
    (l : list A) (k : list B) :
  (∀ i x, (f i x).2 = x) →
  Forall2 (λ e d, P e.2 d) (imap f l) k → Forall2 P l k.
Proof.
  revert f k. induction l as [|x l IH]; intros f k Hf Hrel.
  - inversion Hrel. constructor.
  - simpl in Hrel. inversion Hrel as [|? d ? k' Hhd Htl]; subst.
    rewrite Hf in Hhd. constructor; [done|].
    apply (IH (f ∘ S)); [|done]. intros i y. apply Hf.
Qed.

(** A validation that adds no error and does not fail: the name is not
    empty, and every dimension, in order, carries the id and type unpacked
    from its select id and bounds that are [None] or the floats read from
    what was entered. On two float bounds the test [high < low] is false, so
    two finite bounds are in order; a bound read as not-a-number passes
    beside any other bound, and is kept. *)
Theorem validate_clean (float : string → option pyfloat) (name : string)
    (vector : list edited_dimension) (errors : list validation_error)
    (validated : list validated_dimension) :
  validate float name vector errors = Some (validated, errors) →
  name ≠ ""
  ∧ Forall2 (λ e d,
               unpack_id (edited_id e) = [validated_id d; validated_type d]
               ∧ validated_low d = bound_after_validation float (edited_low e)
               ∧ validated_high d = bound_after_validation float (edited_high e)
               ∧ validated_extra_info d = edited_extra_info e)
      vector validated
  ∧ Forall (λ d, none_or_number (validated_low d)
                 ∧ none_or_number (validated_high d)
                 ∧ well_ordered d ∧ finite_ordered d) validated.
Proof.
  unfold validate. intros Hfold.
  apply validate_loop in Hfold as (ds & new & -> & Herr & Hrel & Hclean).
  simpl. destruct (String.eqb_spec name "") as [->|Hname].
  - exfalso. rewrite <- app_assoc in Herr.
    apply (f_equal length) in Herr. rewrite !length_app in Herr. simpl in Herr. lia.
  - assert (new = []) as ->.
    { apply (f_equal length) in Herr. rewrite length_app in Herr.
      destruct new; [done|]. simpl in Herr. lia. }
    split; [done|]. split; [|by apply Hclean].
    apply (Forall2_imap_snd _ (λ index dim, (index, dim))); [done|exact Hrel].
Qed.

Lemma convert_side_eq (float : string → option pyfloat) (index : nat) (f : field)
    (errors : list validation_error) :
  convert_side float index f errors
  = (bound_after_validation float f, errors ++ side_errors float index f).
Proof.
  unfold convert_side, bound_after_validation, side_errors.
  destruct (field_has_side f); [|by rewrite app_nil_r].
  destruct (to_float float f); [by rewrite app_nil_r|done].
Qed.

Lemma validate_dimension_errors (float : string → option pyfloat)
    (v v' : list validated_dimension) (e e' : list validation_error)
    (index : nat) (dim : edited_dimension) :
  validate_dimension float (Some (v, e)) (index, dim) = Some (v', e') →
  e' = e ++ dimension_errors float index dim.
Proof.
  unfold validate_dimension, dimension_errors, range_errors. simpl.
  rewrite !convert_side_eq.
  destruct (unpack_id (edited_id dim)) as [|a [|b [|c rest]]]; try done.
  intros [= _ <-].
  destruct (_ && _ && _); by rewrite <- !app_assoc, ?app_nil_r.
Qed.

Lemma validate_loop_errors (float : string → option pyfloat)
    (entries : list (nat * edited_dimension))
    (v v' : list validated_dimension) (e e' : list validation_error) :
  fold_left (validate_dimension float) entries (Some (v, e)) = Some (v', e') →
  e' = e ++ (entries ≫= (λ entry, dimension_errors float entry.1 entry.2)).
Proof.
  revert v e. induction entries as [|[index dim] entries IH]; intros v e Hfold.
  { injection Hfold as _ <-. simpl. by rewrite app_nil_r. }
  cbn [fold_left] in Hfold.
  destruct (validate_dimension float (Some (v, e)) (index, dim))
    as [[v1 e1]|] eqn:Hstep; [|by rewrite validate_loop_None in Hfold].
  apply validate_dimension_errors in Hstep as ->.
  apply IH in Hfold as ->. by rewrite bind_cons, <- app_assoc.
Qed.

(** What [validate] reports when it does not fail. The errors reported before
    the call are kept, in front. An empty name is reported. For every
    dimension, a bound that is present and cannot be read as a float is
    reported with the number of the dimension, and so is an upper bound below
    the lower bound as floats compare; for two finite bounds that is every
    lower bound that is not at most the upper bound. *)
Theorem validate_reports (float : string → option pyfloat) (name : string)
    (vector : list edited_dimension) (errors errors' : list validation_error)
    (validated : list validated_dimension) :
  validate float name vector errors = Some (validated, errors') →
  (∃ new, errors' = errors ++ new)
  ∧ (name = "" → EmptyName ∈ errors')
  ∧ (∀ index e, vector !! index = Some e →
       (field_has_side (edited_low e) = true
        ∧ to_float float (edited_low e) = None)
       ∨ (field_has_side (edited_high e) = true
          ∧ to_float float (edited_high e) = None) →
       NonNumeric index ∈ errors')
  ∧ (∀ index e lo hi, vector !! index = Some e →
       bound_after_validation float (edited_low e) = FieldNumber lo →
       bound_after_validation float (edited_high e) = FieldNumber hi →
       float_lt hi lo = true →
       WrongRange index ∈ errors')
  ∧ (∀ index e lo hi, vector !! index = Some e →
       bound_after_validation float (edited_low e) = FieldNumber (Finite lo) →
       bound_after_validation float (edited_high e) = FieldNumber (Finite hi) →
       ¬ (lo <= hi)%Q →
       WrongRange index ∈ errors').
Proof.
  unfold validate. intros Hfold. apply validate_loop_errors in Hfold.
  assert (Hin : ∀ index e err, vector !! index = Some e →
            err ∈ dimension_errors float index e → err ∈ errors').
  { intros index e err Hlook Herr. rewrite Hfold. apply elem_of_app. right.
    apply list_elem_of_bind. exists (index, e). split; [done|].
    apply list_elem_of_lookup. exists index. by rewrite list_lookup_imap, Hlook. }
  assert (Hrange : ∀ index e lo hi, vector !! index = Some e →
            bound_after_validation float (edited_low e) = FieldNumber lo →
            bound_after_validation float (edited_high e) = FieldNumber hi →
            float_lt hi lo = true → WrongRange index ∈ errors').
  { intros index e lo hi Hlook Hlo Hhi Hbad. apply (Hin index e); [done|].
    unfold dimension_errors, range_errors. rewrite Hlo, Hhi.
    apply elem_of_app. right. apply elem_of_app. right. simpl.
    rewrite Hbad. by left. }
  split; [|split; [|split; [|split]]].
  - rewrite Hfold. destruct (String.eqb name ""); [|by eexists].
    rewrite <- app_assoc. by eexists.
  - intros ->. rewrite Hfold. simpl. apply elem_of_app. left.
    apply elem_of_app. right. by left.
  - intros index e Hlook Hbad. apply (Hin index e); [done|].
    unfold dimension_errors, side_errors.
    destruct Hbad as [[-> ->]|[-> ->]].
    + apply elem_of_app. right. apply elem_of_app. left. by left.
    + apply elem_of_app. left. by left.
  - exact Hrange.
  - intros index e lo hi Hlook Hlo Hhi Hbad.
    apply (Hrange index e (Finite lo) (Finite hi)); [done..|].
    destruct (float_lt (Finite hi) (Finite lo)) eqn:Hlt; [done|].
    exfalso. by apply Hbad, float_lt_finite.
Qed.

(** A lower bound entered as ['nan'] goes through [validate] with no error,
    beside a finite upper bound, and stays in the vector as not-a-number. *)
Example validate_keeps_nan :
  validate sample_float "Late starters" sample_edited_vector []
  = Some (sample_validated_vector, []).
Proof. reflexivity. Qed.

End Editor.

Lemma editor_ids_unpack_witness :
  Forall2 (λ dim dim',
             ClusterRESTHandler.unpack_id (DIM_ID dim') = [DIM_ID dim; DIM_TYPE dim]
             ∧ DIM_TYPE dim' = DIM_TYPE dim
             ∧ DIM_LOW dim' = DIM_LOW dim ∧ DIM_HIGH dim' = DIM_HIGH dim
             ∧ DIM_EXTRA_INFO dim' = DIM_EXTRA_INFO dim)
    sample_catalog (ClusterRESTHandler.transform_for_editor_hook sample_catalog).
Proof.
  apply editor_ids_unpack. by repeat constructor.
Defined.

Lemma unpack_id_trailing_hyphen_witness :
  ClusterRESTHandler.unpack_id (ClusterRESTHandler.pack_id ("draft" +:+ "-") "u")
  = ["draft"; "-" +:+ "u"].
Proof. by apply unpack_id_trailing_hyphen. Defined.

Lemma validate_clean_witness :
  "Late starters" ≠ ""
  ∧ Forall2 (λ e d,
               ClusterRESTHandler.unpack_id (edited_id e)
               = [validated_id d; validated_type d]
               ∧ validated_low d = bound_after_validation sample_float (edited_low e)
               ∧ validated_high d = bound_after_validation sample_float (edited_high e)
               ∧ validated_extra_info d = edited_extra_info e)
      sample_edited_vector sample_validated_vector
  ∧ Forall (λ d, none_or_number (validated_low d)
                 ∧ none_or_number (validated_high d)
                 ∧ well_ordered d ∧ finite_ordered d)
      sample_validated_vector.
Proof.
  apply (validate_clean sample_float "Late starters" sample_edited_vector []).
  reflexivity.
Defined.

Lemma validate_reports_witness :
  WrongRange 0
  ∈ [WrongRange 0; NonNumeric 1].
Proof.
  apply (proj1 (proj2 (proj2 (proj2
    (validate_reports sample_float "Inverted"
       [ {| edited_id := "7---u"; edited_low := FieldText "20";
            edited_high := FieldText "10"; edited_extra_info := None |};
         {| edited_id := "1---l"; edited_low := FieldText "many";
            edited_high := FieldNone; edited_extra_info := None |} ]
       [] [WrongRange 0; NonNumeric 1]
       [ {| validated_id := "7"; validated_type := "u";
            validated_low := FieldNumber (Finite 20);
            validated_high := FieldNumber (Finite 10);
            validated_extra_info := None |};
         {| validated_id := "1"; validated_type := "l";
            validated_low := FieldText "many"; validated_high := FieldNone;
            validated_extra_info := None |} ]
       eq_refl)))) 0 _ (Finite 20%Q) (Finite 10%Q) eq_refl eq_refl eq_refl eq_refl).
Defined.
